(** * Meadowio/lab_device: streams, mixers and reactors

    A shallow embedding of [src/device.cpp].  [src/device_with_gtest.cpp]
    repeats the four classes; it differs in casting [size()] to [int] before
    a comparison, which module [Gtest] models for [Reactor::updateOutputs].

    - A C++ [double] is a primitive binary64 float.
    - A [shared_ptr<Stream>] is a location in a finite store of streams; the
      store is shared by every device that holds the pointer, so a stream that
      is attached twice is one object.
    - A method is a computation in a state-and-exception monad over the store
      and the receiver object.  [throw] keeps the state as it is at the point
      of the throw.  Undefined behaviour of the C++ program (an empty
      [shared_ptr] dereferenced, [operator[]] past the end of a vector, a
      division whose divisor is zero) is a [Fault]. *)

From Stdlib Require Import ZArith Lia Bool List String Floats.
From stdpp Require Import base option list gmap strings pretty.

Open Scope Z_scope.

(** ** Machine integers *)

(** [int] is 32 bits wide and [size_t] 64 bits wide. *)
Definition INT_MIN : Z := - 2 ^ 31.
Definition INT_MAX : Z := 2 ^ 31 - 1.
Definition SIZE_MODULUS : Z := 2 ^ 64.

Definition is_int (i : Z) : Prop := INT_MIN <= i <= INT_MAX.

(** The conversion of an [int] to [size_t] that the usual arithmetic
    conversions insert when an [int] meets a [size_t] in a comparison. *)
Definition to_size_t (i : Z) : Z := i mod SIZE_MODULUS.

(** The cast [(int)v.size()] of [device_with_gtest.cpp]. *)
Definition to_int (n : Z) : Z :=
  (n + 2 ^ 31) mod 2 ^ 32 - 2 ^ 31.

(** [std::vector::size()]. *)
Definition vsize {A : Type} (v : list A) : Z := Z.of_nat (length v).

(** ** Doubles *)

(** The conversion of a [size_t] to [double]: the nearest binary64. *)
Definition of_size (n : Z) : float :=
  SF2Prim (binary_normalize prec emax n 0 false).

(** The sum the mixer's loop accumulates: [sum_mass_flow] starts at [0] and
    the flows are added from left to right. *)
Definition sum_flows (ms : list float) : float :=
  fold_left PrimFloat.add ms 0%float.

(** ** Exceptions, faults and the monad of methods *)

(** The program throws string literals ([const char*]) and [std::string]
    objects (["..."s]); a handler for one does not catch the other. *)
Inductive exn : Type :=
| Exn_cstr (msg : string)
| Exn_string (msg : string).

Definition what (e : exn) : string :=
  match e with Exn_cstr m | Exn_string m => m end.

Inductive fault : Type :=
| NullDeref
| OutOfRange
| DivByZero.

Inductive outcome (A : Type) : Type :=
| Ret (a : A)
| Throw (e : exn)
| Fault (f : fault).
Arguments Ret {A} a.
Arguments Throw {A} e.
Arguments Fault {A} f.

Definition M (S A : Type) : Type := S -> outcome A * S.

Definition ret {S A : Type} (a : A) : M S A := fun s => (Ret a, s).

Definition bind {S A B : Type} (c : M S A) (k : A -> M S B) : M S B :=
  fun s =>
    match c s with
    | (Ret a, s') => k a s'
    | (Throw e, s') => (Throw e, s')
    | (Fault f, s') => (Fault f, s')
    end.

Definition throw {S A : Type} (e : exn) : M S A := fun s => (Throw e, s).
Definition undefined {S A : Type} (f : fault) : M S A := fun s => (Fault f, s).
Definition gets {S A : Type} (f : S -> A) : M S A := fun s => (Ret (f s), s).
Definition modify {S : Type} (f : S -> S) : M S unit := fun s => (Ret tt, f s).

Notation "x <- c ;; k" := (bind c (fun x => k))
  (at level 100, c at next level, right associativity).
Notation "c ;; k" := (bind c (fun _ => k))
  (at level 100, right associativity).

(** A range-based [for] over a vector that the body does not resize. *)
Fixpoint for_each {S A : Type} (v : list A) (body : A -> M S unit) : M S unit :=
  match v with
  | [] => ret tt
  | x :: v' => body x ;; for_each v' body
  end.

(** The same loop when the body updates one local variable. *)
Fixpoint for_fold {S A B : Type} (v : list A) (acc : B) (body : B -> A -> M S B)
  : M S B :=
  match v with
  | [] => ret acc
  | x :: v' => acc' <- body acc x ;; for_fold v' acc' body
  end.

(** [v[i]]: [operator[]] does not check its index. *)
Definition vec_at {S A : Type} (v : list A) (i : nat) : M S A :=
  match v !! i with
  | Some x => ret x
  | None => undefined OutOfRange
  end.

(** [x / n] for a [double] [x] and a [size_t] [n]. *)
Definition div_size {S : Type} (x : float) (n : Z) : M S float :=
  if n =? 0 then undefined DivByZero else ret (x / of_size n)%float.

(** ** The error kinds of the specification *)

Inductive resource : Type := Input | Output.

Inductive error_kind : Type :=
| CapacityExceeded (r : resource)
| PreconditionViolation.

Definition error_kind_of (e : exn) : option error_kind :=
  let m := what e in
  if decide (m = "INPUT STREAM LIMIT!"%string) then Some (CapacityExceeded Input)
  else if decide (m = "Too much inputs"%string) then Some (CapacityExceeded Input)
  else if decide (m = "OUTPUT STREAM LIMIT!"%string) then Some (CapacityExceeded Output)
  else if decide (m = "Too much outputs"%string) then Some (CapacityExceeded Output)
  else if decide (m = "Should set outputs before update"%string) then Some PreconditionViolation
  else if decide (m = "Input stream not connected to reactor"%string) then Some PreconditionViolation
  else if decide (m = "Output streams not properly set for reactor"%string) then Some PreconditionViolation
  else None.

(** ** class Stream *)

Definition loc : Type := positive.

Module Stream.

Record t : Type := mk { mass_flow : float; name : string }.

Definition setName (s : string) (self : t) : t :=
  {| mass_flow := mass_flow self; name := s |}.

(** [Stream(int s)]: the name is ["s"] followed by the decimal digits of
    [s]; the constructor leaves [mass_flow] indeterminate, so the value it
    holds until the first [setMassFlow] is a parameter. *)
Definition create (s : Z) (indeterminate : float) : t :=
  setName ("s" +:+ pretty s) {| mass_flow := indeterminate; name := "" |}.

Definition getName (self : t) : string := name self.

Definition setMassFlow (m : float) (self : t) : t :=
  {| mass_flow := m; name := name self |}.

Definition getMassFlow (self : t) : float := mass_flow self.

End Stream.

(** The state a method runs in: the streams of the program and the receiver. *)
Record world (D : Type) : Type := World {
  streams : gmap loc Stream.t;
  self : D
}.
Arguments World {D} streams self.
Arguments streams {D} w.
Arguments self {D} w.

(** [p->getMassFlow()] and [p->setMassFlow(m)] through a [shared_ptr]. *)
Definition getMassFlow {D : Type} (p : loc) : M (world D) float :=
  fun w =>
    match streams w !! p with
    | Some s => (Ret (Stream.getMassFlow s), w)
    | None => (Fault NullDeref, w)
    end.

Definition setMassFlow {D : Type} (p : loc) (m : float) : M (world D) unit :=
  fun w =>
    match streams w !! p with
    | Some s => (Ret tt, World (<[p := Stream.setMassFlow m s]> (streams w)) (self w))
    | None => (Fault NullDeref, w)
    end.

(** The mass-flow and the name of the stream at [p], when there is one. *)
Definition flow {D : Type} (w : world D) (p : loc) : option float :=
  Stream.mass_flow <$> streams w !! p.

Definition name_of {D : Type} (w : world D) (p : loc) : option string :=
  Stream.name <$> streams w !! p.

(** ** class Device *)

Module Device.

Record t : Type := mk {
  inputs : list loc;
  outputs : list loc;
  inputAmount : Z;
  outputAmount : Z
}.

Definition set_inputs (v : list loc) (d : t) : t :=
  mk v (outputs d) (inputAmount d) (outputAmount d).

Definition set_outputs (v : list loc) (d : t) : t :=
  mk (inputs d) v (inputAmount d) (outputAmount d).

Definition set_inputAmount (n : Z) (d : t) : t :=
  mk (inputs d) (outputs d) n (outputAmount d).

Definition set_outputAmount (n : Z) (d : t) : t :=
  mk (inputs d) (outputs d) (inputAmount d) n.

(** [Device()] in a constructor's initialiser list value-initialises the
    base: [Device] has no user-provided constructor, so the two vectors are
    empty and the two [int]s are zero. *)
Definition init : t := mk [] [] 0 0.

End Device.

(** A class derived from [Device] contains a [Device] sub-object. *)
Class Derived (D : Type) : Type := {
  base : D -> Device.t;
  with_base : Device.t -> D -> D
}.

Definition inputs {D : Type} `{Derived D} (w : world D) : list loc :=
  Device.inputs (base (self w)).

Definition outputs {D : Type} `{Derived D} (w : world D) : list loc :=
  Device.outputs (base (self w)).

Definition modify_base {D : Type} `{Derived D} (f : Device.t -> Device.t)
  : M (world D) unit :=
  modify (fun w => World (streams w) (with_base (f (base (self w))) (self w))).

(** [v.push_back(s)] on the two vectors of the receiver. *)
Definition push_input {D : Type} `{Derived D} (s : loc) : M (world D) unit :=
  modify_base (fun d => Device.set_inputs (Device.inputs d ++ [s]) d).

Definition push_output {D : Type} `{Derived D} (s : loc) : M (world D) unit :=
  modify_base (fun d => Device.set_outputs (Device.outputs d ++ [s]) d).

(** [if (c) throw e;] *)
Definition throw_if {S : Type} (c : bool) (e : exn) : M S unit :=
  if c then throw e else ret tt.

Module DeviceMethods.
Section Methods.
Context {D : Type} `{Derived D}.

(** [Device::addInput], [device.cpp] lines 82-85: the [int] capacity is
    converted to [size_t] for the comparison. *)
Definition addInput (s : loc) : M (world D) unit :=
  d <- gets (fun w => base (self w)) ;;
  if vsize (Device.inputs d) <? to_size_t (Device.inputAmount d)
  then push_input s
  else throw (Exn_cstr "INPUT STREAM LIMIT!").

(** [Device::addOutput], [device.cpp] lines 90-93. *)
Definition addOutput (s : loc) : M (world D) unit :=
  d <- gets (fun w => base (self w)) ;;
  if vsize (Device.outputs d) <? to_size_t (Device.outputAmount d)
  then push_output s
  else throw (Exn_cstr "OUTPUT STREAM LIMIT!").

End Methods.
End DeviceMethods.

(** ** class Mixer *)

Definition MIXER_OUTPUTS : Z := 1.

Module Mixer.

Record t : Type := mk { dev : Device.t; _inputs_count : Z }.

#[global] Instance derived : Derived t := {|
  base := dev;
  with_base d m := mk d (_inputs_count m)
|}.

(** [Mixer(int inputs_count)]: the constructor stores its argument and leaves
    the two capacities of the base at the zero of [Device()]. *)
Definition new (inputs_count : Z) : t := mk Device.init inputs_count.

(** [Mixer::addInput], [device.cpp] lines 109-114; it hides the method of
    the base and tests for equality with the stored count. *)
Definition addInput (s : loc) : M (world t) unit :=
  m <- gets self ;;
  throw_if (vsize (Device.inputs (dev m)) =? to_size_t (_inputs_count m))
           (Exn_string "Too much inputs") ;;
  push_input s.

(** [Mixer::addOutput], [device.cpp] lines 115-120. *)
Definition addOutput (s : loc) : M (world t) unit :=
  m <- gets self ;;
  throw_if (vsize (Device.outputs (dev m)) =? to_size_t MIXER_OUTPUTS)
           (Exn_string "Too much outputs") ;;
  push_output s.

(** [Mixer::updateOutputs], [device.cpp] lines 121-136, repeated word for
    word in [device_with_gtest.cpp] lines 145-159: the sum is taken first,
    then the outputs are tested, then every output is assigned. *)
Definition updateOutputs : M (world t) unit :=
  ins <- gets inputs ;;
  sum_mass_flow <-
    for_fold ins 0%float
      (fun acc input_stream =>
         m <- getMassFlow input_stream ;; ret (acc + m)%float) ;;
  outs <- gets outputs ;;
  throw_if (bool_decide (outs = []))
           (Exn_string "Should set outputs before update") ;;
  output_mass <- div_size sum_mass_flow (vsize outs) ;;
  for_each outs (fun output_stream => setMassFlow output_stream output_mass).

End Mixer.

(** ** class Reactor *)

Module Reactor.

Record t : Type := mk { dev : Device.t; isDoubleOutput : bool }.

#[global] Instance derived : Derived t := {|
  base := dev;
  with_base d r := mk d (isDoubleOutput r)
|}.

(** [Reactor(bool isDoubleReactor)], [device.cpp] lines 234-239. *)
Definition new (isDoubleReactor : bool) : t :=
  mk (Device.set_outputAmount (if isDoubleReactor then 2 else 1)
        (Device.set_inputAmount 1 Device.init))
     isDoubleReactor.

(** [Reactor::updateOutputs], [device.cpp] lines 249-274.  The two lines
    written to [cout] are left out. *)
Definition updateOutputs : M (world t) unit :=
  r <- gets self ;;
  throw_if (bool_decide (Device.inputs (dev r) = []))
           (Exn_string "Input stream not connected to reactor") ;;
  throw_if (negb (vsize (Device.outputs (dev r))
                  =? to_size_t (Device.outputAmount (dev r))))
           (Exn_string "Output streams not properly set for reactor") ;;
  in0 <- vec_at (Device.inputs (dev r)) 0 ;;
  inputMass <- getMassFlow in0 ;;
  if isDoubleOutput r then
    let outputMass := (inputMass / 2)%float in
    out0 <- vec_at (Device.outputs (dev r)) 0 ;;
    setMassFlow out0 outputMass ;;
    out1 <- vec_at (Device.outputs (dev r)) 1 ;;
    setMassFlow out1 outputMass
  else
    out0 <- vec_at (Device.outputs (dev r)) 0 ;;
    setMassFlow out0 inputMass.

(** [Reactor::getIsDoubleOutput], [device.cpp] line 280. *)
Definition getIsDoubleOutput : M (world t) bool :=
  gets (fun w => isDoubleOutput (self w)).

End Reactor.

(** ** Calls, reachable states and invariants *)

(** The pointer [p] is not empty. *)
Definition alive {D : Type} (w : world D) (p : loc) : Prop :=
  is_Some (streams w !! p).

(** The streams a device holds are alive: no attached [shared_ptr] is empty. *)
Definition live {D : Type} `{Derived D} (w : world D) : Prop :=
  Forall (alive w) (inputs w ++ outputs w).

(** No stream is attached both as an input and as an output. *)
Definition separate {D : Type} `{Derived D} (w : world D) : Prop :=
  forall p, p ∈ inputs w -> p ∉ outputs w.

(** The attached inputs carry the mass-flows [ms], in order. *)
Definition input_flows {D : Type} `{Derived D} (w : world D) (ms : list float)
  : Prop :=
  Forall2 (fun p m => flow w p = Some m) (inputs w) ms.

(** The store after [p->setMassFlow(x)] for every [p] of [ps]. *)
Definition assign (x : float) (ps : list loc) (h : gmap loc Stream.t)
  : gmap loc Stream.t :=
  foldl (fun h p => alter (Stream.setMassFlow x) p h) h ps.

(** A result that is not undefined behaviour. *)
Definition defined {A : Type} (r : outcome A) : Prop :=
  match r with Fault _ => False | _ => True end.

(** The states a program can bring an object to: it constructs the object,
    calls its public methods, and creates and updates streams in between.
    Nothing is said about a program after undefined behaviour. *)
Section Reach.
Context {D C : Type} (run : C -> M (world D) unit) (init : D).

Inductive reachable_from : world D -> Prop :=
| reach_new h : reachable_from (World h init)
| reach_env w h : reachable_from w -> reachable_from (World h (self w))
| reach_call w c r w' :
    reachable_from w -> run c w = (r, w') -> defined r -> reachable_from w'.

End Reach.

(** The state after a sequence of calls, when none of them is undefined. *)
Fixpoint after {D C : Type} (run : C -> M (world D) unit) (cs : list C)
         (w : world D) : option (world D) :=
  match cs with
  | [] => Some w
  | c :: cs' =>
      match run c w with
      | (Fault _, _) => None
      | (_, w') => after run cs' w'
      end
  end.

Module MixerCalls.

(** The methods a [Mixer] offers: its own three, and the two of [Device]
    that its own hide (reached by a qualified call or through a [Device&]). *)
Inductive call : Type :=
| AddInput (s : loc)
| AddOutput (s : loc)
| UpdateOutputs
| BaseAddInput (s : loc)
| BaseAddOutput (s : loc).

Definition run (c : call) : M (world Mixer.t) unit :=
  match c with
  | AddInput s => Mixer.addInput s
  | AddOutput s => Mixer.addOutput s
  | UpdateOutputs => Mixer.updateOutputs
  | BaseAddInput s => DeviceMethods.addInput s
  | BaseAddOutput s => DeviceMethods.addOutput s
  end.

Definition reachable (inputs_count : Z) : world Mixer.t -> Prop :=
  reachable_from run (Mixer.new inputs_count).

(** What holds of every mixer built with a count [inputs_count >= 0]. *)
Definition inv (inputs_count : Z) (w : world Mixer.t) : Prop :=
  Mixer._inputs_count (self w) = inputs_count
  /\ Device.inputAmount (base (self w)) = 0
  /\ Device.outputAmount (base (self w)) = 0
  /\ vsize (inputs w) <= inputs_count
  /\ vsize (outputs w) <= MIXER_OUTPUTS.

End MixerCalls.

Module ReactorCalls.

Inductive call : Type :=
| AddInput (s : loc)
| AddOutput (s : loc)
| UpdateOutputs
| GetIsDoubleOutput.

Definition run (c : call) : M (world Reactor.t) unit :=
  match c with
  | AddInput s => DeviceMethods.addInput s
  | AddOutput s => DeviceMethods.addOutput s
  | UpdateOutputs => Reactor.updateOutputs
  | GetIsDoubleOutput => _ <- Reactor.getIsDoubleOutput ;; ret tt
  end.

Definition reachable (isDoubleReactor : bool) : world Reactor.t -> Prop :=
  reachable_from run (Reactor.new isDoubleReactor).

(** What holds of every reactor. *)
Definition inv (w : world Reactor.t) : Prop :=
  Device.inputAmount (base (self w)) = 1
  /\ Device.outputAmount (base (self w))
     = (if Reactor.isDoubleOutput (self w) then 2 else 1)
  /\ vsize (inputs w) <= Device.inputAmount (base (self w))
  /\ vsize (outputs w) <= Device.outputAmount (base (self w)).

End ReactorCalls.

(** The pointers [Reactor::updateOutputs] dereferences: its first input and
    its first output, or first two outputs in double mode. *)
Definition touched (w : world Reactor.t) : list loc :=
  take 1 (inputs w)
  ++ take (if Reactor.isDoubleOutput (self w) then 2 else 1) (outputs w).

(** Every run of [Reactor::updateOutputs]: the two exceptions, the two
    successful transfers, and the two kinds of undefined behaviour. *)
Inductive reactor_run (w : world Reactor.t)
  : outcome unit -> world Reactor.t -> Prop :=
| run_no_input :
    inputs w = [] ->
    reactor_run w (Throw (Exn_string "Input stream not connected to reactor")) w
| run_bad_outputs :
    inputs w <> [] ->
    vsize (outputs w) <> to_size_t (Device.outputAmount (base (self w))) ->
    reactor_run w
      (Throw (Exn_string "Output streams not properly set for reactor")) w
| run_transfer i more v o os :
    inputs w = i :: more ->
    vsize (outputs w) = to_size_t (Device.outputAmount (base (self w))) ->
    flow w i = Some v ->
    Reactor.isDoubleOutput (self w) = false ->
    outputs w = o :: os -> alive w o ->
    reactor_run w (Ret tt) (World (assign v [o] (streams w)) (self w))
| run_split i more v o0 o1 os :
    inputs w = i :: more ->
    vsize (outputs w) = to_size_t (Device.outputAmount (base (self w))) ->
    flow w i = Some v ->
    Reactor.isDoubleOutput (self w) = true ->
    outputs w = o0 :: o1 :: os -> alive w o0 -> alive w o1 ->
    reactor_run w (Ret tt) (World (assign (v / 2) [o0; o1] (streams w)) (self w))
| run_null w' :
    inputs w <> [] ->
    vsize (outputs w) = to_size_t (Device.outputAmount (base (self w))) ->
    ~ Forall (alive w) (touched w) ->
    self w' = self w ->
    reactor_run w (Fault NullDeref) w'
| run_range w' :
    inputs w <> [] ->
    vsize (outputs w) = to_size_t (Device.outputAmount (base (self w))) ->
    vsize (outputs w) < (if Reactor.isDoubleOutput (self w) then 2 else 1) ->
    self w' = self w ->
    reactor_run w (Fault OutOfRange) w'.

(** ** [Reactor::updateOutputs] of [device_with_gtest.cpp] *)

Module Gtest.

(** Lines 175-194: the size is cast to [int] before it is compared. *)
Definition updateOutputs : M (world Reactor.t) unit :=
  r <- gets self ;;
  throw_if (bool_decide (Device.inputs (Reactor.dev r) = []))
           (Exn_string "Input stream not connected to reactor") ;;
  throw_if (negb (to_int (vsize (Device.outputs (Reactor.dev r)))
                  =? Device.outputAmount (Reactor.dev r)))
           (Exn_string "Output streams not properly set for reactor") ;;
  in0 <- vec_at (Device.inputs (Reactor.dev r)) 0 ;;
  inputMass <- getMassFlow in0 ;;
  if Reactor.isDoubleOutput r then
    let outputMass := (inputMass / 2)%float in
    out0 <- vec_at (Device.outputs (Reactor.dev r)) 0 ;;
    setMassFlow out0 outputMass ;;
    out1 <- vec_at (Device.outputs (Reactor.dev r)) 1 ;;
    setMassFlow out1 outputMass
  else
    out0 <- vec_at (Device.outputs (Reactor.dev r)) 0 ;;
    setMassFlow out0 inputMass.

End Gtest.

(** ** Binary64 values whose half is exact *)

Definition one_sf : spec_float := S754_finite false 4503599627370496 (-52).
Definition two_sf : spec_float := S754_finite false 4503599627370496 (-51).

(** A finite double [m * 2^e] can be halved without rounding when its
    exponent is above the least one, [-1074], or its significand is even:
    every zero, infinity and NaN, every double of magnitude at least
    [2^-1021], and the even multiples of [2^-1074] below. *)
Definition exact_half_sf (x : spec_float) : bool :=
  match x with
  | S754_finite _ m e =>
      (-1074 <? e) || match m with xO _ => true | _ => false end
  | _ => true
  end.

Definition exact_half (x : float) : bool := exact_half_sf (Prim2SF x).

Definition SFhalf (x : spec_float) : spec_float :=
  match x with
  | S754_finite s m e =>
      if -1074 <? e then S754_finite s m (e - 1)
      else match m with xO p => S754_finite s p e | _ => x end
  | _ => x
  end.

(** ** The tests of [device.cpp] as runs of the model *)

(** The stream number [k] after [setMassFlow(m)]. *)
Definition stream (k : Z) (m : float) : Stream.t :=
  Stream.setMassFlow m (Stream.create k 0).

(** Three streams [s1], [s2], [s3] with the flows given. *)
Definition three_streams (m1 m2 m3 : float) : gmap loc Stream.t :=
  <[3%positive := stream 3 m3]>
    (<[2%positive := stream 2 m2]> (<[1%positive := stream 1 m1]> ∅)).

(** [shouldSetOutputsCorrectlyWithOneOutput] up to the call of
    [updateOutputs]: a mixer of two inputs, [s1] and [s2] in, [s3] out. *)
Definition mixer_wired : world Mixer.t :=
  snd ((Mixer.addInput 1%positive ;; Mixer.addInput 2%positive ;;
        Mixer.addOutput 3%positive)
         (World (three_streams 10 5 0) (Mixer.new 2))).

(** A mixer with an output and no input. *)
Definition mixer_no_input : world Mixer.t :=
  snd (Mixer.addOutput 3%positive (World (three_streams 10 5 7) (Mixer.new 2))).

(** [testReactorSingleOutput]: [s1] in, [s2] out. *)
Definition reactor_single (v : float) : world Reactor.t :=
  snd ((DeviceMethods.addInput 1%positive ;; DeviceMethods.addOutput 2%positive)
         (World (three_streams v 0 0) (Reactor.new false))).

(** [testReactorDoubleOutput]: [s1] in, [s2] and [s3] out. *)
Definition reactor_double (v : float) : world Reactor.t :=
  snd ((DeviceMethods.addInput 1%positive ;; DeviceMethods.addOutput 2%positive ;;
        DeviceMethods.addOutput 3%positive)
         (World (three_streams v 0 0) (Reactor.new true))).

(** A reactor whose output is its own input. *)
Definition reactor_loop (v : float) : world Reactor.t :=
  snd ((DeviceMethods.addInput 1%positive ;; DeviceMethods.addOutput 1%positive)
         (World (three_streams v 0 0) (Reactor.new false))).

(** A mixer of two inputs with nothing attached. *)
Definition mixer_unwired : world Mixer.t :=
  World (three_streams 10 5 0) (Mixer.new 2).

(** [NoInputException]: a single reactor with [s1] out and no input. *)
Definition reactor_no_input : world Reactor.t :=
  snd (DeviceMethods.addOutput 1%positive
         (World (three_streams 0 0 0) (Reactor.new false))).

(** [WrongOutputCountException]: a double reactor with [s1] in and only
    [s2] out. *)
Definition reactor_one_of_two : world Reactor.t :=
  snd ((DeviceMethods.addInput 1%positive ;; DeviceMethods.addOutput 2%positive)
         (World (three_streams 30 0 0) (Reactor.new true))).

(** A mixer whose first input is also its output. *)
Definition mixer_loop : world Mixer.t :=
  snd ((Mixer.addInput 1%positive ;; Mixer.addInput 2%positive ;;
        Mixer.addOutput 1%positive)
         (World (three_streams 10 5 0) (Mixer.new 2))).

(** A mixer holding an empty pointer as its input. *)
Definition mixer_dangling : world Mixer.t :=
  snd ((Mixer.addInput 4%positive ;; Mixer.addOutput 3%positive)
         (World (three_streams 10 5 0) (Mixer.new 2))).

(** ** The adders of [device_with_gtest.cpp] *)

Module GtestDevice.
Section Methods.
Context {D : Type} `{Derived D}.

(** [Device::addInput], [device_with_gtest.cpp] lines 108-111: the size is
    cast to [int] and the comparison is signed. *)
Definition addInput (s : loc) : M (world D) unit :=
  d <- gets (fun w => base (self w)) ;;
  if to_int (vsize (Device.inputs d)) <? Device.inputAmount d
  then push_input s
  else throw (Exn_cstr "INPUT STREAM LIMIT!").

(** [Device::addOutput], [device_with_gtest.cpp] lines 113-116. *)
Definition addOutput (s : loc) : M (world D) unit :=
  d <- gets (fun w => base (self w)) ;;
  if to_int (vsize (Device.outputs d)) <? Device.outputAmount d
  then push_output s
  else throw (Exn_cstr "OUTPUT STREAM LIMIT!").

End Methods.
End GtestDevice.

Module GtestMixer.

(** [Mixer::addInput], [device_with_gtest.cpp] lines 131-136. *)
Definition addInput (s : loc) : M (world Mixer.t) unit :=
  m <- gets self ;;
  throw_if (to_int (vsize (Device.inputs (Mixer.dev m)))
            =? Mixer._inputs_count m)
           (Exn_string "Too much inputs") ;;
  push_input s.

(** [Mixer::addOutput], [device_with_gtest.cpp] lines 138-143. *)
Definition addOutput (s : loc) : M (world Mixer.t) unit :=
  m <- gets self ;;
  throw_if (to_int (vsize (Device.outputs (Mixer.dev m))) =? MIXER_OUTPUTS)
           (Exn_string "Too much outputs") ;;
  push_output s.

End GtestMixer.

(** ** Wiring a device and updating it, as every test does *)

(** [d.addInput(s)] for each stream of [ss], then [d.addOutput(o)], then
    [d.updateOutputs()] on a mixer. *)
Definition wire_mixer (ss : list loc) (o : loc) : M (world Mixer.t) unit :=
  for_each ss Mixer.addInput ;; Mixer.addOutput o ;; Mixer.updateOutputs.

(** [r.addInput(i)], then [r.addOutput(o)] for each stream of [os], then
    [r.updateOutputs()] on a reactor. *)
Definition wire_reactor (i : loc) (os : list loc) : M (world Reactor.t) unit :=
  DeviceMethods.addInput i ;; for_each os DeviceMethods.addOutput ;;
  Reactor.updateOutputs.

(** ** The checks of the tests *)

(** [const float POSSIBLE_ERROR = 0.01]: the nearest [float] to 0.01, which
    a comparison with a [double] promotes to [double]. *)
Definition POSSIBLE_ERROR : float := 0x1.47ae14p-7%float.

(** The condition of [shouldSetOutputsCorrectlyWithOneOutput], [device.cpp]
    line 155: [abs(s3->getMassFlow()) - 15 < POSSIBLE_ERROR]. *)
Definition mixer_test_accepts (x : float) : bool :=
  (abs x - 15 <? POSSIBLE_ERROR)%float.

(** The condition of [testReactorSingleOutput], [device.cpp] line 300:
    [abs(output->getMassFlow() - 20.0) < POSSIBLE_ERROR]. *)
Definition reactor_test_accepts (x : float) : bool :=
  (abs (x - 20) <? POSSIBLE_ERROR)%float.

(** [EXPECT_NEAR(val1, val2, abs_error)], [device_with_gtest.cpp] lines
    32-36: the macro fails when [std::abs(val1 - val2) > abs_error]; the
    result is [true] when it does not fail. *)
Definition expect_near (val1 val2 abs_error : float) : bool :=
  negb (abs_error <? abs (val1 - val2))%float.

(** ** The test runner of [device_with_gtest.cpp] *)

Module Runner.

(** What a registered test does when the runner calls it: it returns, or
    throws a [std::exception] (the [std::runtime_error] of a failed
    [EXPECT_...]), or throws something else (a [std::string] or a string
    literal of the devices), which the runner's handler does not catch. *)
Inductive behaviour : Type :=
| Returns
| ThrowsStd
| ThrowsOther (e : exn).

Record TestCase : Type := mkTest { name : string; function : behaviour }.

Record tally : Type := mkTally {
  passed : Z;
  failed : Z;
  printed : list string
}.

Inductive result : Type :=
| Exit (code : Z) (t : tally)
| Terminate (e : exn) (t : tally).

(** The loop of [main], lines 323-333; a line of [printed] is what is
    written before one [std::endl]. *)
Fixpoint loop (tests : list TestCase) (t : tally) : tally + exn * tally :=
  match tests with
  | [] => inl t
  | test :: tests' =>
      let t1 := mkTally (passed t) (failed t)
                  (printed t ++ ["[ RUN      ] " +:+ name test]) in
      match function test with
      | Returns =>
          loop tests'
            (mkTally (passed t1 + 1) (failed t1)
               (printed t1 ++ ["[       OK ] " +:+ name test]))
      | ThrowsStd =>
          loop tests'
            (mkTally (passed t1) (failed t1 + 1)
               (printed t1 ++ ["[  FAILED  ] " +:+ name test]))
      | ThrowsOther e => inr (e, t1)
      end
  end.

(** [main], lines 314-344. *)
Definition main (tests : list TestCase) : result :=
  let t0 := mkTally 0 0
              ["Chemical Process Simulation - Google Tests";
               "==========================================";
               "[==========] Running " +:+ pretty (vsize tests) +:+ " tests"] in
  match loop tests t0 with
  | inr (e, t) => Terminate e t
  | inl t =>
      let t1 := mkTally (passed t) (failed t)
                  (printed t
                   ++ ["[==========] " +:+ pretty (passed t + failed t)
                       +:+ " tests ran";
                       "[  PASSED  ] " +:+ pretty (passed t) +:+ " tests"]) in
      if 0 <? failed t1
      then Exit 1 (mkTally (passed t1) (failed t1)
                     (printed t1
                      ++ ["[  FAILED  ] " +:+ pretty (failed t1) +:+ " tests"]))
      else Exit 0 (mkTally (passed t1) (failed t1)
                     (printed t1 ++ [""; "All tests passed successfully!"]))
  end.

(** The tests that return and the tests that throw a [std::exception]. *)
Fixpoint count (b : behaviour -> bool) (tests : list TestCase) : Z :=
  match tests with
  | [] => 0
  | test :: tests' => (if b (function test) then 1 else 0) + count b tests'
  end.

Definition returns (b : behaviour) : bool :=
  match b with Returns => true | _ => false end.

Definition throws_std (b : behaviour) : bool :=
  match b with ThrowsStd => true | _ => false end.

Definition caught (b : behaviour) : bool :=
  match b with ThrowsOther _ => false | _ => true end.

End Runner.

(** ** Signs of binary64 values *)

(** The values whose sign bit is set and which are not NaN. *)
Definition signed_below_zero (f : spec_float) : Prop :=
  match f with
  | S754_zero true | S754_infinity true | S754_finite true _ _ => True
  | _ => False
  end.

(** The literal [15] of [device.cpp] line 155, as a [double]. *)
Definition fifteen_sf : spec_float := S754_finite false 8444249301319680 (-49).

(** * Binary64 arithmetic: division by one and by two *)

Section Binary64.

Lemma fexp_eq x : fexp prec emax x = Z.max (x - 53) (-1074).
Proof. reflexivity. Qed.

Lemma bounded_inv m e :
  bounded prec emax m e = true ->
  Z.max (Zpos (digits2_pos m) + e - 53) (-1074) = e /\ e <= 971.
Proof.
  unfold bounded, canonical_mantissa. rewrite fexp_eq.
  intros H. apply andb_prop in H. destruct H as [H1 H2].
  apply Z.eqb_eq in H1. apply Z.leb_le in H2.
  change (emax - prec) with 971 in H2. lia.
Qed.

Lemma bounded_intro m e :
  Z.max (Zpos (digits2_pos m) + e - 53) (-1074) = e -> e <= 971 ->
  bounded prec emax m e = true.
Proof.
  intros H1 H2. unfold bounded, canonical_mantissa. rewrite fexp_eq.
  apply andb_true_intro. split.
  - apply Z.eqb_eq. lia.
  - apply Z.leb_le. change (emax - prec) with 971. lia.
Qed.

Lemma shr_fexp_0 m e :
  Z.max (Zpos (digits2_pos m) + e - 53) (-1074) = e ->
  shr_fexp prec emax (Zpos m) e loc_Exact
  = ({| shr_m := Zpos m; shr_r := false; shr_s := false |}, e).
Proof.
  intros H. unfold shr_fexp. rewrite fexp_eq. cbn [Zdigits2 shr_record_of_loc].
  replace (Z.max (Zpos (digits2_pos m) + e - 53) (-1074) - e) with 0 by lia.
  reflexivity.
Qed.

Lemma round_exact0 s m e :
  bounded prec emax m e = true ->
  binary_round_aux prec emax s (Zpos m) e loc_Exact = S754_finite s m e.
Proof.
  intros Hb. destruct (bounded_inv _ _ Hb) as [Hc He].
  unfold binary_round_aux.
  rewrite (shr_fexp_0 m e Hc). cbn [shr_m loc_of_shr_record round_nearest_even].
  rewrite (shr_fexp_0 m e Hc). cbn [shr_m].
  change (emax - prec) with 971.
  destruct (Z.leb_spec e 971); [reflexivity | lia].
Qed.

Lemma shr_fexp_1 m e :
  Z.max (Zpos (digits2_pos m) + e - 53) (-1074) = e ->
  shr_fexp prec emax (Zpos m~0) (e - 1) loc_Exact
  = ({| shr_m := Zpos m; shr_r := false; shr_s := false |}, e).
Proof.
  intros H. unfold shr_fexp. rewrite fexp_eq. cbn [Zdigits2 digits2_pos shr_record_of_loc].
  rewrite Pos2Z.inj_succ.
  replace (Z.max (Z.succ (Zpos (digits2_pos m)) + (e - 1) - 53) (-1074) - (e - 1)) with 1 by lia.
  unfold shr. cbn [iter_pos shr_1 orb]. f_equal. lia.
Qed.

Lemma round_exact1 s m e :
  bounded prec emax m e = true ->
  binary_round_aux prec emax s (Zpos m~0) (e - 1) loc_Exact = S754_finite s m e.
Proof.
  intros Hb. destruct (bounded_inv _ _ Hb) as [Hc He].
  unfold binary_round_aux.
  rewrite (shr_fexp_1 m e Hc). cbn [shr_m loc_of_shr_record round_nearest_even].
  rewrite (shr_fexp_0 m e Hc). cbn [shr_m].
  change (emax - prec) with 971.
  destruct (Z.leb_spec e 971); [reflexivity | lia].
Qed.

Lemma div_eucl_exact q k : 0 < k -> Z.div_eucl (q * k) k = (q, 0).
Proof.
  intros Hk.
  pose proof (Z.div_mul q k ltac:(lia)) as Hd.
  pose proof (Z.mod_mul q k) as Hm.
  unfold Z.div, Z.modulo in Hd, Hm.
  destruct (Z.div_eucl (q * k) k) as [a b]. cbn [fst snd] in Hd, Hm.
  rewrite Hd, Hm by lia. reflexivity.
Qed.

Lemma Prim2SF_one : Prim2SF 1%float = one_sf.
Proof. reflexivity. Qed.
Lemma Prim2SF_two : Prim2SF 2%float = two_sf.
Proof. reflexivity. Qed.

Lemma shiftl_pos m k : 0 <= k -> Z.shiftl (Zpos m) k = Zpos m * 2 ^ k.
Proof. intros. apply Z.shiftl_mul_pow2; lia. Qed.

(* division core, in the three shapes *)
Lemma div_core m e e2 :
  bounded prec emax m e = true ->
  (e2 = -52 \/ e2 = -51) ->
  -1074 < e + (-52 - e2) ->
  SFdiv_core_binary prec emax (Zpos m) e 4503599627370496 e2
  = (Zpos m~0, e - e2 - 53, loc_Exact).
Proof.
  intros Hb He2 Hlow. destruct (bounded_inv _ _ Hb) as [Hc He].
  unfold SFdiv_core_binary. rewrite fexp_eq.
  cbn [Zdigits2]. change (Zpos (digits2_pos 4503599627370496)) with 53.
  assert (Hd : Zpos (digits2_pos m) = 53) by lia.
  rewrite Hd.
  replace (Z.min (Z.max (53 + e - (53 + e2) - 53) (-1074)) (e - e2)) with (e - e2 - 53) by lia.
  replace (e - e2 - (e - e2 - 53)) with 53 by lia.
  rewrite shiftl_pos by lia.
  replace (Zpos m * 2 ^ 53) with (Zpos m~0 * 4503599627370496) by (rewrite (Pos2Z.inj_xO m); lia).
  rewrite div_eucl_exact by lia. reflexivity.
Qed.

Lemma div_core_low m e e2 :
  bounded prec emax m e = true ->
  (e2 = -52 \/ e2 = -51) ->
  e + (-52 - e2) = -1074 ->
  SFdiv_core_binary prec emax (Zpos m) e 4503599627370496 e2
  = (Zpos m, -1074, loc_Exact).
Proof.
  intros Hb He2 Hlow. destruct (bounded_inv _ _ Hb) as [Hc He].
  unfold SFdiv_core_binary. rewrite fexp_eq.
  cbn [Zdigits2]. change (Zpos (digits2_pos 4503599627370496)) with 53.
  replace (Z.min (Z.max (Zpos (digits2_pos m) + e - (53 + e2) - 53) (-1074)) (e - e2))
    with (-1074) by lia.
  replace (e - e2 - -1074) with 52 by lia.
  rewrite shiftl_pos by lia.
  change (2 ^ 52) with 4503599627370496.
  rewrite div_eucl_exact by lia. reflexivity.
Qed.

Lemma div_core_even p :
  bounded prec emax p~0 (-1074) = true ->
  SFdiv_core_binary prec emax (Zpos p~0) (-1074) 4503599627370496 (-51)
  = (Zpos p, -1074, loc_Exact).
Proof.
  intros Hb. destruct (bounded_inv _ _ Hb) as [Hc He].
  unfold SFdiv_core_binary. rewrite fexp_eq.
  cbn [Zdigits2]. change (Zpos (digits2_pos 4503599627370496)) with 53.
  replace (Z.min (Z.max (Zpos (digits2_pos p~0) + -1074 - (53 + -51) - 53) (-1074)) (-1074 - -51))
    with (-1074) by lia.
  change (-1074 - -51 - -1074) with 51.
  rewrite shiftl_pos by lia.
  replace (Zpos p~0 * 2 ^ 51) with (Zpos p * 4503599627370496) by (rewrite (Pos2Z.inj_xO p); lia).
  rewrite div_eucl_exact by lia. reflexivity.
Qed.

Lemma xorb_false_r' b : xorb b false = b.
Proof. now destruct b. Qed.

(** x / 1 = x *)
Lemma SFdiv_one x : valid_binary x = true -> SF64div x one_sf = x.
Proof.
  destruct x as [s|s| |s m e]; intros Hv; try (now destruct s); try reflexivity.
  cbn [valid_binary] in Hv. destruct (bounded_inv _ _ Hv) as [Hc He].
  unfold SF64div, SFdiv, one_sf. rewrite xorb_false_r'.
  destruct (Z.eq_dec e (-1074)) as [E|E].
  - rewrite div_core_low by (auto; lia). subst e. now apply round_exact0.
  - rewrite div_core by (auto; lia).
    replace (e - -52 - 53) with (e - 1) by lia. now apply round_exact1.
Qed.

Theorem div_one (x : float) : (x / 1)%float = x.
Proof.
  apply Prim2SF_inj. rewrite div_spec, Prim2SF_one.
  apply SFdiv_one, Prim2SF_valid.
Qed.

Lemma SFdiv_two x :
  valid_binary x = true -> exact_half_sf x = true ->
  SF64div x two_sf = SFhalf x /\ valid_binary (SFhalf x) = true.
Proof.
  destruct x as [s|s| |s m e]; intros Hv Hh; try (now destruct s); try (split; reflexivity).
  cbn [valid_binary] in Hv. destruct (bounded_inv _ _ Hv) as [Hc He].
  unfold SF64div, SFdiv, two_sf, SFhalf. rewrite xorb_false_r'.
  cbn [exact_half_sf] in Hh.
  destruct (Z.ltb_spec (-1074) e) as [L|L].
  - assert (Hb' : bounded prec emax m (e - 1) = true) by (apply bounded_intro; lia).
    split; [|exact Hb'].
    destruct (Z.eq_dec e (-1073)) as [E|E].
    + rewrite div_core_low by (auto; lia). subst e. now apply round_exact0.
    + rewrite div_core by (auto; lia).
      replace (e - -51 - 53) with (e - 1 - 1) by lia. now apply round_exact1.
  - destruct m as [p|p|]; try discriminate Hh.
    assert (e = -1074) by lia. subst e.
    assert (Hb' : bounded prec emax p (-1074) = true).
    { apply bounded_intro; [|lia]. cbn [digits2_pos] in Hc.
      rewrite Pos2Z.inj_succ in Hc. lia. }
    split; [|exact Hb'].
    rewrite div_core_even by assumption. now apply round_exact0.
Qed.

Lemma SFadd_self s m e :
  SF64add (S754_finite s m e) (S754_finite s m e) = binary_round prec emax s m~0 e.
Proof.
  unfold SF64add, SFadd. rewrite Z.min_id.
  unfold shl_align at 1 2. rewrite Z.sub_diag. cbn [fst].
  destruct s; unfold cond_Zopp.
  - change (- Z.pos m) with (Z.neg m).
    rewrite Pos2Z.add_neg_neg, Pos.add_diag. reflexivity.
  - rewrite Pos2Z.add_pos_pos, Pos.add_diag. reflexivity.
Qed.

Lemma binary_round_double s m e :
  bounded prec emax m e = true ->
  binary_round prec emax s m~0 (e - 1) = S754_finite s m e.
Proof.
  intros Hb. destruct (bounded_inv _ _ Hb) as [Hc He].
  unfold binary_round. rewrite fexp_eq. cbn [digits2_pos]. rewrite Pos2Z.inj_succ.
  replace (Z.max (Z.succ (Zpos (digits2_pos m)) + (e - 1) - 53) (-1074)) with e by lia.
  unfold shl_align. replace (e - (e - 1)) with 1 by lia.
  now apply round_exact1.
Qed.

Lemma binary_round_same s m e :
  bounded prec emax m e = true ->
  binary_round prec emax s m e = S754_finite s m e.
Proof.
  intros Hb. destruct (bounded_inv _ _ Hb) as [Hc He].
  unfold binary_round. rewrite fexp_eq.
  replace (Z.max (Zpos (digits2_pos m) + e - 53) (-1074)) with e by lia.
  unfold shl_align. rewrite Z.sub_diag.
  now apply round_exact0.
Qed.

Lemma SFadd_half x :
  valid_binary x = true -> exact_half_sf x = true ->
  SF64add (SFhalf x) (SFhalf x) = x.
Proof.
  destruct x as [s|s| |s m e]; intros Hv Hh; try (now destruct s); try reflexivity.
  cbn [valid_binary] in Hv. cbn [exact_half_sf] in Hh. unfold SFhalf.
  destruct (Z.ltb_spec (-1074) e) as [L|L].
  - rewrite SFadd_self. now apply binary_round_double.
  - destruct m as [p|p|]; try discriminate Hh.
    rewrite SFadd_self. now apply binary_round_same.
Qed.

Theorem half_plus_half (x : float) :
  exact_half x = true -> (x / 2 + x / 2)%float = x.
Proof.
  intros Hh. apply Prim2SF_inj. rewrite add_spec, div_spec, Prim2SF_two.
  destruct (SFdiv_two (Prim2SF x) (Prim2SF_valid x) Hh) as [-> _].
  apply SFadd_half; [apply Prim2SF_valid | exact Hh].
Qed.


(** ** Halving an odd multiple of [2^-1074] *)

Lemma digits2_pos_bound m : Zpos m < 2 ^ Zpos (digits2_pos m).
Proof.
  induction m as [m IH|m IH|]; cbn [digits2_pos]; rewrite ?Pos2Z.inj_succ.
  - rewrite Z.pow_succ_r by lia. rewrite Pos2Z.inj_xI. lia.
  - rewrite Z.pow_succ_r by lia. rewrite Pos2Z.inj_xO. lia.
  - reflexivity.
Qed.

Lemma digits2_pos_low m : 2 ^ (Zpos (digits2_pos m) - 1) <= Zpos m.
Proof.
  induction m as [m IH|m IH|]; cbn [digits2_pos]; rewrite ?Pos2Z.inj_succ.
  - replace (Z.succ (Zpos (digits2_pos m)) - 1)
      with (Z.succ (Zpos (digits2_pos m) - 1)) by lia.
    rewrite Z.pow_succ_r by lia. rewrite (Pos2Z.inj_xI m). lia.
  - replace (Z.succ (Zpos (digits2_pos m)) - 1)
      with (Z.succ (Zpos (digits2_pos m) - 1)) by lia.
    rewrite Z.pow_succ_r by lia. rewrite (Pos2Z.inj_xO m). lia.
  - reflexivity.
Qed.

Lemma digits_of_small m :
  Zpos m < 9007199254740992 -> Zpos (digits2_pos m) <= 53.
Proof.
  intros Hm. pose proof (digits2_pos_low m) as Hlow.
  destruct (Z.le_gt_cases (Zpos (digits2_pos m)) 53) as [H|H]; [exact H|].
  assert (Hp : 2 ^ 53 <= 2 ^ (Zpos (digits2_pos m) - 1))
    by (apply Z.pow_le_mono_r; lia).
  change (2 ^ 53) with 9007199254740992 in Hp. lia.
Qed.

Lemma small_of_digits m :
  Zpos (digits2_pos m) <= 53 -> Zpos m < 9007199254740992.
Proof.
  intros Hd. eapply Z.lt_le_trans; [apply digits2_pos_bound|].
  change 9007199254740992 with (2 ^ 53). apply Z.pow_le_mono_r; lia.
Qed.

Lemma bounded_low_iff m :
  bounded prec emax m (-1074) = true <-> Zpos m < 9007199254740992.
Proof.
  split.
  - intros Hb. destruct (bounded_inv _ _ Hb) as [Hc _].
    apply small_of_digits. lia.
  - intros Hm. pose proof (digits_of_small m Hm).
    apply bounded_intro; lia.
Qed.

Lemma div_eucl_unique a b q r :
  0 <= r < b -> a = b * q + r -> Z.div_eucl a b = (q, r).
Proof.
  intros Hr Heq.
  pose proof (Z.div_unique_pos _ _ _ _ Hr Heq) as Hd.
  pose proof (Z.mod_unique_pos _ _ _ _ Hr Heq) as Hm.
  unfold Z.div, Z.modulo in Hd, Hm.
  destruct (Z.div_eucl a b) as [a' b']. cbn [fst snd] in Hd, Hm.
  now rewrite Hd, Hm.
Qed.

Lemma div_eucl_half p :
  Z.div_eucl (Zpos p~1 * 2251799813685248) 4503599627370496
  = (Zpos p, 2251799813685248).
Proof.
  apply div_eucl_unique; [lia|]. rewrite (Pos2Z.inj_xI p). lia.
Qed.

(** The quotient of an odd significand at the least exponent is a tie. *)
Lemma div_core_odd p :
  bounded prec emax p~1 (-1074) = true ->
  SFdiv_core_binary prec emax (Zpos p~1) (-1074) 4503599627370496 (-51)
  = (Zpos p, -1074, loc_Inexact Eq).
Proof.
  intros Hb. destruct (bounded_inv _ _ Hb) as [Hc He].
  unfold SFdiv_core_binary. rewrite fexp_eq.
  cbn [Zdigits2]. change (Zpos (digits2_pos 4503599627370496)) with 53.
  replace (Z.min (Z.max (Zpos (digits2_pos p~1) + -1074 - (53 + -51) - 53) (-1074)) (-1074 - -51))
    with (-1074) by lia.
  change (-1074 - -51 - -1074) with 51.
  rewrite shiftl_pos by lia. change (2 ^ 51) with 2251799813685248.
  rewrite div_eucl_half. reflexivity.
Qed.

Lemma shr_fexp_tie p :
  Zpos p < 9007199254740992 ->
  shr_fexp prec emax (Zpos p) (-1074) (loc_Inexact Eq)
  = ({| shr_m := Zpos p; shr_r := true; shr_s := false |}, -1074).
Proof.
  intros Hp. pose proof (digits_of_small p Hp) as Hd.
  unfold shr_fexp. rewrite fexp_eq. cbn [Zdigits2 shr_record_of_loc].
  replace (Z.max (Zpos (digits2_pos p) + -1074 - 53) (-1074) - -1074) with 0 by lia.
  reflexivity.
Qed.

(** Halving [(2p+1) * 2^-1074] rounds to one of its two neighbours. *)
Lemma SFdiv_two_odd s p :
  bounded prec emax p~1 (-1074) = true ->
  exists h,
    SF64div (S754_finite s p~1 (-1074)) two_sf = S754_finite s h (-1074)
    /\ (Zpos h = Zpos p \/ Zpos h = Zpos p + 1).
Proof.
  intros Hb. pose proof (proj1 (bounded_low_iff _) Hb) as Hm.
  rewrite Pos2Z.inj_xI in Hm.
  unfold SF64div, SFdiv, two_sf. rewrite xorb_false_r'.
  rewrite (div_core_odd p Hb). unfold binary_round_aux.
  rewrite shr_fexp_tie by lia.
  cbn [shr_m loc_of_shr_record shr_r shr_s round_nearest_even].
  assert (Hh : exists h, (if Z.even (Zpos p) then Zpos p else Zpos p + 1) = Zpos h
                         /\ (Zpos h = Zpos p \/ Zpos h = Zpos p + 1)).
  { destruct (Z.even (Zpos p)).
    - exists p. split; [reflexivity | now left].
    - exists (Pos.succ p). rewrite Pos2Z.inj_succ. split; [lia | right; lia]. }
  destruct Hh as (h & -> & Hh). exists h. split; [|exact Hh].
  assert (Hhb : bounded prec emax h (-1074) = true)
    by (apply bounded_low_iff; lia).
  destruct (bounded_inv _ _ Hhb) as [Hc _].
  rewrite (shr_fexp_0 h (-1074) Hc). cbn [shr_m]. reflexivity.
Qed.

Lemma SFsub_near s a b e :
  Zpos a - Zpos b = 1 \/ Zpos a - Zpos b = -1 ->
  binary_normalize prec emax 1 e false = S754_finite false 1 e ->
  binary_normalize prec emax (-1) e false = S754_finite true 1 e ->
  SFabs (SF64sub (S754_finite s a e) (S754_finite s b e)) = S754_finite false 1 e.
Proof.
  intros Hd H1 H2. unfold SF64sub, SFsub. rewrite Z.min_id.
  unfold shl_align. rewrite Z.sub_diag. cbn [fst].
  assert (Hz : cond_Zopp s (Zpos a) - cond_Zopp s (Zpos b) = 1
               \/ cond_Zopp s (Zpos a) - cond_Zopp s (Zpos b) = -1)
    by (destruct s; unfold cond_Zopp; lia).
  destruct Hz as [-> | ->]; [rewrite H1 | rewrite H2]; reflexivity.
Qed.

(** The two halves of an odd multiple of [2^-1074] add up to a neighbour of
    it: the sum is off by one unit of the least exponent. *)
Lemma SFhalf_sum_odd s m :
  bounded prec emax m (-1074) = true ->
  exact_half_sf (S754_finite s m (-1074)) = false ->
  let x := S754_finite s m (-1074) in
  SFabs (SF64sub (SF64add (SF64div x two_sf) (SF64div x two_sf)) x)
  = S754_finite false 1 (-1074).
Proof.
  intros Hb Hodd x. subst x. cbn [exact_half_sf] in Hodd.
  destruct m as [p| |]; [| discriminate Hodd | now destruct s].
  clear Hodd.
  destruct (Z.eq_dec (Zpos p) 4503599627370495) as [E|E].
  - injection E as ->. now destruct s.
  - pose proof (proj1 (bounded_low_iff _) Hb) as Hm.
    rewrite Pos2Z.inj_xI in Hm.
    destruct (SFdiv_two_odd s p Hb) as (h & -> & Hh).
    rewrite SFadd_self.
    assert (Hhb : bounded prec emax h~0 (-1074) = true)
      by (apply bounded_low_iff; rewrite Pos2Z.inj_xO; lia).
    rewrite (binary_round_same s _ _ Hhb).
    apply SFsub_near; [|reflexivity|reflexivity].
    rewrite Pos2Z.inj_xO, Pos2Z.inj_xI. lia.
Qed.

(** The sum of the two halves of a double that cannot be halved exactly
    differs from it by the least positive double. *)
Theorem half_plus_half_rounded (x : float) :
  exact_half x = false -> abs (x / 2 + x / 2 - x)%float = 0x1p-1074%float.
Proof.
  intros Hh. apply Prim2SF_inj.
  rewrite abs_spec, sub_spec, add_spec, div_spec, Prim2SF_two.
  change (Prim2SF 0x1p-1074) with (S754_finite false 1 (-1074)).
  unfold exact_half in Hh. pose proof (Prim2SF_valid x) as Hv.
  destruct (Prim2SF x) as [s|s| |s m e]; try discriminate Hh.
  cbn [valid_binary] in Hv. destruct (bounded_inv _ _ Hv) as [Hc _].
  assert (He : e = -1074).
  { cbn [exact_half_sf] in Hh. apply orb_false_elim in Hh as [Hlt _].
    apply Z.ltb_ge in Hlt. lia. }
  subst e. now apply SFhalf_sum_odd.
Qed.

Lemma is_finite_sf (x : float) :
  is_finite x = true ->
  match Prim2SF x with S754_zero _ | S754_finite _ _ _ => True | _ => False end.
Proof.
  unfold is_finite, is_nan, is_infinity.
  rewrite !FloatAxioms.eqb_spec, abs_spec.
  change (Prim2SF infinity) with (S754_infinity false).
  destruct (Prim2SF x) as [s|s| |s m e]; cbn; try easy.
  now destruct s.
Qed.

Lemma SFsub_self x :
  match x with S754_zero _ | S754_finite _ _ _ => True | _ => False end ->
  SFabs (SF64sub x x) = S754_zero false.
Proof.
  destruct x as [s|s| |s m e]; intros Hx; try easy.
  - now destruct s.
  - unfold SF64sub, SFsub. rewrite Z.min_id.
    unfold shl_align. rewrite !Z.sub_diag. reflexivity.
Qed.

(** The sum of the two halves of a finite double is within the tolerance of
    the tests of it. *)
Theorem half_plus_half_near (x : float) :
  is_finite x = true ->
  (abs (x / 2 + x / 2 - x) <? POSSIBLE_ERROR)%float = true.
Proof.
  intros Hfin. destruct (exact_half x) eqn:Hh.
  - rewrite (half_plus_half x Hh).
    rewrite ltb_spec, abs_spec, sub_spec.
    rewrite (SFsub_self _ (is_finite_sf x Hfin)). reflexivity.
  - rewrite (half_plus_half_rounded x Hh). reflexivity.
Qed.

End Binary64.

(** * The store: assigning one flow to a list of streams *)

Section Store.
Implicit Types (h : gmap loc Stream.t) (p q : loc) (x : float).

Lemma setMassFlow_twice x (s : Stream.t) :
  Stream.setMassFlow x (Stream.setMassFlow x s) = Stream.setMassFlow x s.
Proof. reflexivity. Qed.

Lemma insert_as_alter h p x s :
  h !! p = Some s -> <[p := Stream.setMassFlow x s]> h = alter (Stream.setMassFlow x) p h.
Proof.
  intros Hp. apply map_eq. intros q.
  rewrite lookup_insert, lookup_alter.
  destruct (decide (p = q)) as [->|]; [rewrite Hp|]; reflexivity.
Qed.

Lemma lookup_assign x ps h q :
  assign x ps h !! q
  = if decide (q ∈ ps) then Stream.setMassFlow x <$> h !! q else h !! q.
Proof.
  revert h. induction ps as [|p ps IH]; intros h; cbn [assign foldl].
  - destruct (decide (q ∈ [])) as [Hin|]; [inversion Hin | reflexivity].
  - fold (assign x ps (alter (Stream.setMassFlow x) p h)). rewrite IH.
    rewrite lookup_alter.
    destruct (decide (q ∈ ps)) as [Hq|Hq], (decide (p = q)) as [->|Hpq].
    + rewrite decide_True by left. now destruct (h !! q).
    + rewrite decide_True by now right. reflexivity.
    + rewrite decide_True by left. reflexivity.
    + rewrite decide_False; [reflexivity|].
      intros [?|?]%elem_of_cons; congruence.
Qed.

Lemma assign_is_Some x ps h q :
  is_Some (assign x ps h !! q) <-> is_Some (h !! q).
Proof.
  rewrite lookup_assign. destruct (decide (q ∈ ps)); [|reflexivity].
  apply fmap_is_Some.
Qed.

(** Assigning [x] where every stream of [ps] already carries [x] changes
    nothing. *)
Lemma assign_same x ps h :
  (forall p, p ∈ ps -> forall s, h !! p = Some s -> Stream.mass_flow s = x) ->
  assign x ps h = h.
Proof.
  intros Hx. apply map_eq. intros q. rewrite lookup_assign.
  destruct (decide (q ∈ ps)) as [Hq|]; [|reflexivity].
  destruct (h !! q) as [s|] eqn:E; [|reflexivity].
  cbn. f_equal. specialize (Hx q Hq s E). destruct s as [m n].
  cbn in Hx. subst m. reflexivity.
Qed.

Lemma assign_idempotent x ps h : assign x ps (assign x ps h) = assign x ps h.
Proof.
  apply assign_same. intros p Hp s. rewrite lookup_assign, decide_True by done.
  destruct (h !! p); cbn; [|discriminate]. now intros [= <-].
Qed.

End Store.

(** * The two loops of the mixer *)

Section Loops.
Context {D : Type}.
Implicit Types (w : world D) (p : loc).

Lemma flow_is_Some w p : is_Some (flow w p) <-> alive w p.
Proof. apply fmap_is_Some. Qed.

(** The summing loop either meets an empty pointer or returns the sum of
    the flows, and it leaves the state alone. *)
Lemma sum_loop ps acc w :
  (exists ms, Forall2 (fun p m => flow w p = Some m) ps ms
     /\ for_fold ps acc
          (fun a p => m <- getMassFlow p ;; ret (a + m)%float) w
        = (Ret (fold_left PrimFloat.add ms acc), w))
  \/ (~ Forall (alive w) ps
     /\ for_fold ps acc
          (fun a p => m <- getMassFlow p ;; ret (a + m)%float) w
        = (Fault NullDeref, w)).
Proof.
  revert acc. induction ps as [|p ps IH]; intros acc.
  - left. exists []. split; [constructor | reflexivity].
  - cbn [for_fold]. destruct (streams w !! p) as [s|] eqn:E.
    + destruct (IH (acc + Stream.getMassFlow s)%float)
        as [(ms & Hms & Heq) | (Hdead & Heq)].
      * left. exists (Stream.getMassFlow s :: ms). split.
        -- constructor; [|exact Hms]. unfold flow. now rewrite E.
        -- unfold bind, getMassFlow, ret. rewrite E. exact Heq.
      * right. split.
        -- intros Hall. apply Hdead. now inversion Hall.
        -- unfold bind, getMassFlow, ret. rewrite E. exact Heq.
    + right. split.
      * intros Hall. inversion Hall as [|? ? Hp _]; subst.
        unfold alive in Hp. rewrite E in Hp. now destruct Hp.
      * unfold bind, getMassFlow. now rewrite E.
Qed.

(** The assigning loop either meets an empty pointer or assigns to every
    stream of the list. *)
Lemma assign_loop ps x w :
  (Forall (alive w) ps
     /\ for_each ps (fun p => setMassFlow p x) w
        = (Ret tt, World (assign x ps (streams w)) (self w)))
  \/ (~ Forall (alive w) ps
     /\ exists w', for_each ps (fun p => setMassFlow p x) w = (Fault NullDeref, w')
                   /\ self w' = self w).
Proof.
  revert w. induction ps as [|p ps IH]; intros w.
  - left. split; [constructor|]. now destruct w.
  - cbn [for_each]. destruct (streams w !! p) as [s|] eqn:E.
    + assert (Hstep : forall q,
                 alive (World (alter (Stream.setMassFlow x) p (streams w)) (self w)) q
                 <-> alive w q).
      { intros q. unfold alive. cbn [streams]. rewrite lookup_alter.
        destruct (decide (p = q)) as [<-|]; [apply fmap_is_Some | reflexivity]. }
      destruct (IH (World (alter (Stream.setMassFlow x) p (streams w)) (self w)))
        as [(Hall & Heq) | (Hdead & w' & Heq & Hself)].
      * left. split.
        -- constructor; [unfold alive; now rewrite E|].
           eapply Forall_impl; [exact Hall|]. intros q. apply Hstep.
        -- unfold bind, setMassFlow. rewrite E.
           rewrite (insert_as_alter _ _ _ _ E). exact Heq.
      * right. split.
        -- intros Hall. apply Hdead. inversion Hall as [|? ? _ Hps]; subst.
           eapply Forall_impl; [exact Hps|]. intros q. apply Hstep.
        -- exists w'. split; [|exact Hself].
           unfold bind, setMassFlow. rewrite E.
           rewrite (insert_as_alter _ _ _ _ E). exact Heq.
    + right. split.
      * intros Hall. inversion Hall as [|? ? Hp _]; subst.
        unfold alive in Hp. rewrite E in Hp. now destruct Hp.
      * exists w. split; [|reflexivity]. unfold bind, setMassFlow. now rewrite E.
Qed.

End Loops.

(** * Running the methods *)

Lemma bind_eq {S A B : Type} (c : M S A) (k : A -> M S B) (s : S) :
  bind c k s
  = match c s with
    | (Ret a, s') => k a s'
    | (Throw e, s') => (Throw e, s')
    | (Fault f, s') => (Fault f, s')
    end.
Proof. reflexivity. Qed.

Lemma gets_eq {S A : Type} (f : S -> A) (s : S) : gets f s = (Ret (f s), s).
Proof. reflexivity. Qed.

Lemma ret_eq {S A : Type} (a : A) (s : S) : ret a s = (Ret a, s).
Proof. reflexivity. Qed.

Lemma throw_if_eq {S : Type} (c : bool) (e : exn) (s : S) :
  throw_if c e s = if c then (Throw e, s) else (Ret tt, s).
Proof. now destruct c. Qed.

Lemma div_size_eq {S : Type} (x : float) (n : Z) (s : S) :
  div_size x n s
  = if n =? 0 then (Fault DivByZero, s) else (Ret (x / of_size n)%float, s).
Proof. unfold div_size. now destruct (n =? 0). Qed.

Lemma vec_at_eq {S A : Type} (v : list A) (i : nat) (s : S) :
  vec_at v i s
  = match v !! i with Some x => (Ret x, s) | None => (Fault OutOfRange, s) end.
Proof. unfold vec_at. now destruct (v !! i). Qed.

(** One statement of a method body. *)
Ltac step :=
  rewrite bind_eq;
  rewrite ?gets_eq, ?ret_eq, ?throw_if_eq, ?div_size_eq, ?vec_at_eq;
  cbv beta iota.

Lemma world_eta {D : Type} (w : world D) : World (streams w) (self w) = w.
Proof. now destruct w. Qed.

(** Every run of [Mixer::updateOutputs]. *)
Lemma mixer_update_run (w : world Mixer.t) :
  (~ Forall (alive w) (inputs w)
   /\ Mixer.updateOutputs w = (Fault NullDeref, w))
  \/ exists ms, input_flows w ms /\
      ((outputs w = []
        /\ Mixer.updateOutputs w
           = (Throw (Exn_string "Should set outputs before update"), w))
       \/ (outputs w <> [] /\ Forall (alive w) (outputs w)
           /\ Mixer.updateOutputs w
              = (Ret tt,
                 World (assign (sum_flows ms / of_size (vsize (outputs w)))
                          (outputs w) (streams w)) (self w)))
       \/ (outputs w <> [] /\ ~ Forall (alive w) (outputs w)
           /\ exists w', Mixer.updateOutputs w = (Fault NullDeref, w')
                         /\ self w' = self w)).
Proof.
  unfold Mixer.updateOutputs. step.
  destruct (sum_loop (inputs w) 0%float w) as [(ms & Hms & Heq) | (Hdead & Heq)].
  - right. exists ms. split; [exact Hms|].
    step. rewrite Heq. step. step.
    destruct (outputs w) as [|o os] eqn:Eo.
    + left. split; reflexivity.
    + right. rewrite bool_decide_false by discriminate. cbv iota.
      assert (Hnz : (vsize (o :: os) =? 0) = false).
      { apply Z.eqb_neq. unfold vsize. cbn [length]. lia. }
      step. rewrite Hnz. cbv iota.
      destruct (assign_loop (o :: os)
                  (fold_left PrimFloat.add ms 0 / of_size (vsize (o :: os)))%float w)
        as [(Hall & Hrun) | (Hnot & w' & Hrun & Hself)].
      * left. split; [discriminate|]. split; [exact Hall|]. exact Hrun.
      * right. split; [discriminate|]. split; [exact Hnot|]. now exists w'.
  - left. split; [exact Hdead|]. step. now rewrite Heq.
Qed.

(** Every run of [Reactor::updateOutputs]. *)
Lemma reactor_update_run (w : world Reactor.t) :
  reactor_run w (fst (Reactor.updateOutputs w)) (snd (Reactor.updateOutputs w)).
Proof.
  unfold Reactor.updateOutputs. step. step.
  destruct w as [h [[ins outs ia oa] dbl]].
  unfold inputs, outputs, base; cbn [self Reactor.derived Reactor.dev
    Reactor.isDoubleOutput Device.inputs Device.outputs Device.outputAmount].
  set (w := World h (Reactor.mk (Device.mk ins outs ia oa) dbl)).
  destruct ins as [|i more].
  { rewrite bool_decide_true by reflexivity. cbv iota. now apply run_no_input. }
  rewrite bool_decide_false by discriminate. cbv iota. step.
  destruct (Z.eqb_spec (vsize outs) (to_size_t oa)) as [Hsz|Hsz]; cbn [negb]; cbv iota.
  2: { now apply run_bad_outputs. }
  step. cbn [lookup list_lookup]. cbv iota. step.
  unfold getMassFlow.
  assert (Hnull : forall q w', q ∈ touched w -> h !! q = None ->
            self w' = self w -> reactor_run w (Fault NullDeref) w').
  { intros q w' Hq Eq Hself. apply run_null; [discriminate|exact Hsz| |exact Hself].
    rewrite Forall_forall. intros Hall.
    specialize (Hall q Hq). unfold alive in Hall. cbn in Hall.
    rewrite Eq in Hall. now destruct Hall. }
  change (streams w) with h. destruct (h !! i) as [s|] eqn:Ei; cbn [fst snd].
  2: { apply (Hnull i); [left|exact Ei|reflexivity]. }
  assert (Hv : flow w i = Some (Stream.getMassFlow s)).
  { unfold flow. cbn. now rewrite Ei. }
  destruct dbl; cbv iota; step.
  - destruct outs as [|o0 outs]; cbn [lookup list_lookup]; cbv iota; cbn [fst snd].
    { apply run_range; [discriminate|exact Hsz|unfold vsize, outputs; cbn; lia|reflexivity]. }
    step. unfold setMassFlow. change (streams w) with h.
    destruct (h !! o0) as [s0|] eqn:E0; cbn [fst snd].
    2: { apply (Hnull o0); [right; left|exact E0|reflexivity]. }
    step. destruct outs as [|o1 outs]; cbn [lookup list_lookup]; cbv iota; cbn [fst snd].
    { apply run_range; [discriminate|exact Hsz|unfold vsize, outputs; cbn; lia|reflexivity]. }
    cbv beta. cbn [streams self]. rewrite lookup_insert.
    rewrite (insert_as_alter _ _ _ _ E0).
    destruct (decide (o0 = o1)) as [<-|Hne].
    + cbn [fst snd].
      rewrite (insert_as_alter (alter _ o0 h) o0 _ (Stream.setMassFlow _ s0)).
      2: { rewrite lookup_alter, decide_True by reflexivity. now rewrite E0. }
      eapply (run_split w i more _ o0 o0 outs); try done.
      all: unfold alive; cbn; now rewrite E0.
    + destruct (h !! o1) as [s1|] eqn:E1; cbn [fst snd].
      2: { apply (Hnull o1); [right; right; left|exact E1|reflexivity]. }
      rewrite (insert_as_alter (alter _ o0 h) o1 _ s1).
      2: { rewrite lookup_alter, decide_False by exact Hne. exact E1. }
      eapply (run_split w i more _ o0 o1 outs); try done.
      * unfold alive; cbn. now rewrite E0.
      * unfold alive; cbn. now rewrite E1.
  - destruct outs as [|o outs]; cbn [lookup list_lookup]; cbv iota; cbn [fst snd].
    { apply run_range; [discriminate|exact Hsz|unfold vsize, outputs; cbn; lia|reflexivity]. }
    unfold setMassFlow. change (streams w) with h.
    destruct (h !! o) as [s0|] eqn:E0; cbn [fst snd].
    2: { apply (Hnull o); [right; left|exact E0|reflexivity]. }
    rewrite (insert_as_alter _ _ _ _ E0).
    eapply (run_transfer w i more _ o outs); try done.
    unfold alive; cbn; now rewrite E0.
Qed.

(** ** [addInput] and [addOutput] *)

Lemma to_size_t_id (n : Z) : 0 <= n < SIZE_MODULUS -> to_size_t n = n.
Proof. intros. unfold to_size_t. now apply Z.mod_small. Qed.

Lemma to_size_t_int (n : Z) : is_int n -> 0 <= n -> to_size_t n = n.
Proof.
  unfold is_int, INT_MAX. intros [_ Hhi] Hlo. apply to_size_t_id.
  unfold SIZE_MODULUS. lia.
Qed.

Lemma vsize_nonneg {A : Type} (v : list A) : 0 <= vsize v.
Proof. unfold vsize. lia. Qed.

Lemma vsize_app {A : Type} (v : list A) (x : A) : vsize (v ++ [x]) = vsize v + 1.
Proof. unfold vsize. rewrite length_app. cbn [length]. lia. Qed.

Section BaseMethods.
Context {D : Type} `{Derived D}.
Implicit Types (w : world D) (s : loc).

Lemma device_addInput_run s w :
  DeviceMethods.addInput s w
  = if vsize (inputs w) <? to_size_t (Device.inputAmount (base (self w)))
    then (Ret tt,
          World (streams w)
            (with_base (Device.set_inputs (inputs w ++ [s]) (base (self w)))
               (self w)))
    else (Throw (Exn_cstr "INPUT STREAM LIMIT!"), w).
Proof.
  unfold DeviceMethods.addInput. step. unfold inputs.
  now destruct (_ <? _).
Qed.

Lemma device_addOutput_run s w :
  DeviceMethods.addOutput s w
  = if vsize (outputs w) <? to_size_t (Device.outputAmount (base (self w)))
    then (Ret tt,
          World (streams w)
            (with_base (Device.set_outputs (outputs w ++ [s]) (base (self w)))
               (self w)))
    else (Throw (Exn_cstr "OUTPUT STREAM LIMIT!"), w).
Proof.
  unfold DeviceMethods.addOutput. step. unfold outputs.
  now destruct (_ <? _).
Qed.

End BaseMethods.

Lemma mixer_addInput_run (s : loc) (w : world Mixer.t) :
  Mixer.addInput s w
  = if vsize (inputs w) =? to_size_t (Mixer._inputs_count (self w))
    then (Throw (Exn_string "Too much inputs"), w)
    else (Ret tt,
          World (streams w)
            (with_base (Device.set_inputs (inputs w ++ [s]) (base (self w)))
               (self w))).
Proof.
  unfold Mixer.addInput. step. step. unfold inputs, base, Mixer.derived.
  now destruct (_ =? _).
Qed.

Lemma mixer_addOutput_run (s : loc) (w : world Mixer.t) :
  Mixer.addOutput s w
  = if vsize (outputs w) =? to_size_t MIXER_OUTPUTS
    then (Throw (Exn_string "Too much outputs"), w)
    else (Ret tt,
          World (streams w)
            (with_base (Device.set_outputs (outputs w ++ [s]) (base (self w)))
               (self w))).
Proof.
  unfold Mixer.addOutput. step. step. unfold outputs, base, Mixer.derived.
  now destruct (_ =? _).
Qed.

(** ** The receiver after [updateOutputs] *)

Lemma mixer_update_self (w : world Mixer.t) :
  self (snd (Mixer.updateOutputs w)) = self w.
Proof.
  destruct (mixer_update_run w)
    as [(_ & ->) | (ms & _ & [(_ & ->) | [(_ & _ & ->) | (_ & _ & w' & -> & Hs)]])];
    done.
Qed.

Lemma reactor_run_self (w w' : world Reactor.t) (r : outcome unit) :
  reactor_run w r w' -> self w' = self w.
Proof. now destruct 1. Qed.

Lemma reactor_update_self (w : world Reactor.t) :
  self (snd (Reactor.updateOutputs w)) = self w.
Proof. apply (reactor_run_self _ _ _ (reactor_update_run w)). Qed.

(** ** Invariants of the reachable states *)

Lemma mixer_inv_self (N : Z) (w w' : world Mixer.t) :
  self w' = self w -> MixerCalls.inv N w -> MixerCalls.inv N w'.
Proof. unfold MixerCalls.inv, inputs, outputs. now intros ->. Qed.

Lemma mixer_inv_new (N : Z) (h : gmap loc Stream.t) :
  0 <= N -> MixerCalls.inv N (World h (Mixer.new N)).
Proof.
  intros HN. unfold MixerCalls.inv, inputs, outputs, MIXER_OUTPUTS, vsize. cbn.
  repeat split; lia.
Qed.

Lemma mixer_inv_call (N : Z) (c : MixerCalls.call) (w w' : world Mixer.t)
      (r : outcome unit) :
  0 <= N <= INT_MAX ->
  MixerCalls.run c w = (r, w') -> MixerCalls.inv N w -> MixerCalls.inv N w'.
Proof.
  intros HN Hrun Hinv.
  assert (HNs : to_size_t N = N).
  { apply to_size_t_int; [unfold is_int, INT_MIN|]; lia. }
  destruct Hinv as (Hc & Hia & Hoa & Hin & Hout).
  destruct c as [s|s| |s|s]; cbn [MixerCalls.run] in Hrun.
  - rewrite mixer_addInput_run, Hc, HNs in Hrun.
    destruct (Z.eqb_spec (vsize (inputs w)) N) as [E|E]; inversion Hrun; subst.
    + now repeat split.
    + unfold MixerCalls.inv, inputs, outputs in *. destruct w as [h [d n]].
      cbn in *. rewrite vsize_app. repeat split; try done. lia.
  - rewrite mixer_addOutput_run in Hrun. change (to_size_t MIXER_OUTPUTS) with 1 in Hrun.
    unfold MIXER_OUTPUTS in *.
    destruct (Z.eqb_spec (vsize (outputs w)) 1) as [E|E]; inversion Hrun; subst.
    + now repeat split.
    + unfold MixerCalls.inv, inputs, outputs in *. destruct w as [h [d n]].
      cbn in *. rewrite vsize_app. repeat split; try done. unfold MIXER_OUTPUTS. lia.
  - apply (mixer_inv_self N w); [|now repeat split].
    rewrite <- (mixer_update_self w). now rewrite Hrun.
  - rewrite device_addInput_run, Hia in Hrun. change (to_size_t 0) with 0 in Hrun.
    pose proof (vsize_nonneg (inputs w)).
    destruct (Z.ltb_spec (vsize (inputs w)) 0); [lia|].
    inversion Hrun; subst. now repeat split.
  - rewrite device_addOutput_run, Hoa in Hrun. change (to_size_t 0) with 0 in Hrun.
    pose proof (vsize_nonneg (outputs w)).
    destruct (Z.ltb_spec (vsize (outputs w)) 0); [lia|].
    inversion Hrun; subst. now repeat split.
Qed.

Lemma mixer_reachable_inv (N : Z) (w : world Mixer.t) :
  0 <= N <= INT_MAX -> MixerCalls.reachable N w -> MixerCalls.inv N w.
Proof.
  intros HN Hreach. induction Hreach as [h | w h _ IH | w c r w' _ IH Hrun _].
  - apply mixer_inv_new. lia.
  - now apply (mixer_inv_self N w).
  - now apply (mixer_inv_call N c w w' r).
Qed.

Lemma reactor_inv_self (w w' : world Reactor.t) :
  self w' = self w -> ReactorCalls.inv w -> ReactorCalls.inv w'.
Proof. unfold ReactorCalls.inv, inputs, outputs. now intros ->. Qed.

Lemma reactor_inv_new (b : bool) (h : gmap loc Stream.t) :
  ReactorCalls.inv (World h (Reactor.new b)).
Proof.
  unfold ReactorCalls.inv, inputs, outputs, vsize. cbn.
  repeat split; try lia. destruct b; lia.
Qed.

Lemma reactor_outputAmount_range (w : world Reactor.t) :
  ReactorCalls.inv w ->
  to_size_t (Device.outputAmount (base (self w)))
  = Device.outputAmount (base (self w))
  /\ 1 <= Device.outputAmount (base (self w)) <= 2.
Proof.
  intros (_ & Hoa & _). rewrite Hoa.
  destruct (Reactor.isDoubleOutput (self w)); split; (reflexivity || lia).
Qed.

Lemma reactor_run_mode (c : ReactorCalls.call) (w w' : world Reactor.t)
      (r : outcome unit) :
  ReactorCalls.run c w = (r, w') ->
  Reactor.isDoubleOutput (self w') = Reactor.isDoubleOutput (self w).
Proof.
  intros Hrun. destruct c as [s|s| | ]; cbn [ReactorCalls.run] in Hrun.
  - rewrite device_addInput_run in Hrun.
    destruct (_ <? _); inversion Hrun; reflexivity.
  - rewrite device_addOutput_run in Hrun.
    destruct (_ <? _); inversion Hrun; reflexivity.
  - rewrite <- (reactor_update_self w). now rewrite Hrun.
  - inversion Hrun; reflexivity.
Qed.

Lemma reactor_inv_call (c : ReactorCalls.call) (w w' : world Reactor.t)
      (r : outcome unit) :
  ReactorCalls.run c w = (r, w') -> ReactorCalls.inv w -> ReactorCalls.inv w'.
Proof.
  intros Hrun Hinv.
  destruct (reactor_outputAmount_range w Hinv) as [Hsz Hrange].
  destruct Hinv as (Hia & Hoa & Hin & Hout).
  destruct c as [s|s| | ]; cbn [ReactorCalls.run] in Hrun.
  - rewrite device_addInput_run, Hia in Hrun. change (to_size_t 1) with 1 in Hrun.
    destruct (Z.ltb_spec (vsize (inputs w)) 1) as [E|E]; inversion Hrun; subst.
    + unfold ReactorCalls.inv, inputs, outputs in *. destruct w as [h [d n]].
      cbn in *. rewrite vsize_app. repeat split; try done. lia.
    + now repeat split.
  - rewrite device_addOutput_run, Hsz in Hrun.
    destruct (Z.ltb_spec (vsize (outputs w)) (Device.outputAmount (base (self w))))
      as [E|E]; inversion Hrun; subst.
    + unfold ReactorCalls.inv, inputs, outputs in *. destruct w as [h [d n]].
      cbn in *. rewrite vsize_app. repeat split; try done. lia.
    + now repeat split.
  - apply (reactor_inv_self w); [|now repeat split].
    rewrite <- (reactor_update_self w). now rewrite Hrun.
  - inversion Hrun; subst. now repeat split.
Qed.

Lemma reactor_reachable_inv (b : bool) (w : world Reactor.t) :
  ReactorCalls.reachable b w ->
  ReactorCalls.inv w /\ Reactor.isDoubleOutput (self w) = b.
Proof.
  intros Hreach. induction Hreach as [h | w h _ IH | w c r w' _ IH Hrun _].
  - split; [apply reactor_inv_new | reflexivity].
  - destruct IH as [IH1 IH2]. split; [now apply (reactor_inv_self w) | exact IH2].
  - destruct IH as [IH1 IH2]. split.
    + now apply (reactor_inv_call c w w' r).
    + now rewrite (reactor_run_mode c w w' r Hrun).
Qed.

(** Under the invariant the cast of [device_with_gtest.cpp] changes nothing. *)
Lemma to_int_small (n : Z) : 0 <= n <= INT_MAX -> to_int n = n.
Proof.
  unfold INT_MAX, to_int. intros Hn.
  rewrite Z.mod_small by lia. lia.
Qed.

Lemma gtest_updateOutputs_eq (w : world Reactor.t) :
  ReactorCalls.inv w -> Gtest.updateOutputs w = Reactor.updateOutputs w.
Proof.
  intros Hinv. destruct (reactor_outputAmount_range w Hinv) as [Hsz Hrange].
  destruct Hinv as (Hia & Hoa & Hin & Hout).
  unfold Gtest.updateOutputs, Reactor.updateOutputs.
  rewrite !(bind_eq (gets self)), !gets_eq. cbv beta iota.
  rewrite !(bind_eq (throw_if (bool_decide _) _)). rewrite !throw_if_eq.
  destruct (bool_decide _); [reflexivity|]. cbv iota.
  rewrite !(bind_eq (throw_if (negb _) _)), !throw_if_eq.
  unfold outputs, base, Reactor.derived in Hsz, Hout, Hrange.
  rewrite Hsz, to_int_small; [reflexivity|].
  pose proof (vsize_nonneg (Device.outputs (Reactor.dev (self w)))).
  unfold INT_MAX. lia.
Qed.

(** ** Flows and names after an assignment *)

Section Frame.
Context {D : Type}.
Implicit Types (w : world D) (d : D) (p q : loc) (x : float).

Lemma flow_assign_in x ps w d q :
  q ∈ ps -> alive w q -> flow (World (assign x ps (streams w)) d) q = Some x.
Proof.
  intros Hq [s Hs]. unfold flow. cbn [streams].
  rewrite lookup_assign, decide_True by exact Hq. now rewrite Hs.
Qed.

Lemma flow_assign_out x ps w d q :
  q ∉ ps -> flow (World (assign x ps (streams w)) d) q = flow w q.
Proof.
  intros Hq. unfold flow. cbn [streams].
  now rewrite lookup_assign, decide_False by exact Hq.
Qed.

Lemma name_assign x ps w d q :
  name_of (World (assign x ps (streams w)) d) q = name_of w q.
Proof.
  unfold name_of. cbn [streams]. rewrite lookup_assign.
  destruct (decide (q ∈ ps)); [|reflexivity]. now destruct (streams w !! q).
Qed.

Lemma dom_assign x ps (h : gmap loc Stream.t) : dom (assign x ps h) = dom h.
Proof.
  apply set_eq. intros q. rewrite !elem_of_dom. apply assign_is_Some.
Qed.

Lemma flows_functional w ps ms ms' :
  Forall2 (fun p m => flow w p = Some m) ps ms ->
  Forall2 (fun p m => flow w p = Some m) ps ms' -> ms = ms'.
Proof.
  intros H1. revert ms'. induction H1 as [|p m ps ms Hp _ IH]; intros ms' H2.
  - now inversion H2.
  - inversion H2 as [|? m' ? ms'' Hp' Hrest]; subst.
    f_equal; [congruence | now apply IH].
Qed.

End Frame.

Lemma live_inputs {D : Type} `{Derived D} (w : world D) :
  live w -> Forall (alive w) (inputs w).
Proof. unfold live. rewrite Forall_app. now intros [? _]. Qed.

Lemma live_outputs {D : Type} `{Derived D} (w : world D) :
  live w -> Forall (alive w) (outputs w).
Proof. unfold live. rewrite Forall_app. now intros [_ ?]. Qed.

Lemma of_size_one : of_size 1 = 1%float.
Proof. reflexivity. Qed.

(** The successful run of the mixer, from its preconditions. *)
Lemma mixer_update_ok (w : world Mixer.t) (ms : list float) :
  live w -> input_flows w ms -> outputs w <> [] ->
  Mixer.updateOutputs w
  = (Ret tt,
     World (assign (sum_flows ms / of_size (vsize (outputs w)))
              (outputs w) (streams w)) (self w)).
Proof.
  intros Hlive Hms Hout.
  destruct (mixer_update_run w)
    as [(Hdead & _) | (ms' & Hms' & [(E & _) | [(_ & _ & Hrun) | (_ & Hdead & _)]])].
  - destruct Hdead. now apply live_inputs.
  - contradiction.
  - now rewrite (flows_functional w _ _ _ Hms Hms').
  - destruct Hdead. now apply live_outputs.
Qed.

(** * The claims *)

(** The test of the mixer: 10 and 5 give 15. *)
Lemma mixer_test_15 :
  flow (snd (Mixer.updateOutputs mixer_wired)) 3%positive = Some 15%float.
Proof. vm_compute. reflexivity. Qed.

(** C1. A mixer with at least one output attached and inputs carrying the
    mass-flows [ms] assigns to every attached output the sum of [ms] divided
    by the number of attached outputs; with exactly one output attached the
    output carries the sum itself. *)
Theorem mixer_update_mean (w : world Mixer.t) (ms : list float) :
  live w -> input_flows w ms -> outputs w <> [] ->
  exists w',
    Mixer.updateOutputs w = (Ret tt, w')
    /\ (forall o, o ∈ outputs w ->
          flow w' o = Some (sum_flows ms / of_size (vsize (outputs w)))%float)
    /\ (forall o, outputs w = [o] -> flow w' o = Some (sum_flows ms)).
Proof.
  intros Hlive Hms Hout. eexists. split; [now apply (mixer_update_ok w ms)|].
  assert (Hall : Forall (alive w) (outputs w)) by now apply live_outputs.
  rewrite Forall_forall in Hall.
  split.
  - intros o Ho. apply flow_assign_in; [exact Ho | now apply Hall].
  - intros o Eo. rewrite flow_assign_in; [| rewrite Eo; left | apply Hall; rewrite Eo; left].
    rewrite Eo. change (vsize [o]) with 1. now rewrite of_size_one, div_one.
Qed.

Ltac is_alive := eexists; vm_compute; reflexivity.

Lemma mixer_update_mean_witness :
  live mixer_wired
  /\ input_flows mixer_wired [10%float; 5%float]
  /\ outputs mixer_wired <> []
  /\ exists w',
       Mixer.updateOutputs mixer_wired = (Ret tt, w')
       /\ flow w' 3%positive = Some (sum_flows [10%float; 5%float])
       /\ sum_flows [10%float; 5%float] = 15%float.
Proof.
  assert (Hlive : live mixer_wired).
  { unfold live. repeat constructor; is_alive. }
  assert (Hms : input_flows mixer_wired [10%float; 5%float]).
  { unfold input_flows. repeat constructor. }
  assert (Hout : outputs mixer_wired <> []) by discriminate.
  do 3 (split; [assumption|]).
  destruct (mixer_update_mean mixer_wired [10%float; 5%float] Hlive Hms Hout)
    as (w' & Hrun & _ & Hone).
  exists w'. split; [exact Hrun|]. split; [now apply Hone | reflexivity].
Defined.

(** C6. A mixer with an output attached and no input attached updates
    without an error and sets the flow of its output to zero. *)
Theorem mixer_update_no_input (w : world Mixer.t) :
  live w -> inputs w = [] -> outputs w <> [] ->
  vsize (outputs w) <= MIXER_OUTPUTS ->
  exists w',
    Mixer.updateOutputs w = (Ret tt, w')
    /\ forall o, o ∈ outputs w -> flow w' o = Some 0%float.
Proof.
  intros Hlive Hin Hout Hcap.
  assert (Hms : input_flows w []) by (unfold input_flows; rewrite Hin; constructor).
  eexists. split; [now apply (mixer_update_ok w [])|].
  intros o Ho.
  assert (Hall : Forall (alive w) (outputs w)) by now apply live_outputs.
  rewrite Forall_forall in Hall.
  rewrite flow_assign_in; [|exact Ho|now apply Hall].
  assert (Hone : vsize (outputs w) = 1).
  { unfold MIXER_OUTPUTS, vsize in *. destruct (outputs w); [done|cbn in *; lia]. }
  rewrite Hone. reflexivity.
Qed.

Lemma mixer_update_no_input_witness :
  live mixer_no_input
  /\ inputs mixer_no_input = []
  /\ outputs mixer_no_input <> []
  /\ vsize (outputs mixer_no_input) <= MIXER_OUTPUTS
  /\ exists w',
       Mixer.updateOutputs mixer_no_input = (Ret tt, w')
       /\ flow w' 3%positive = Some 0%float.
Proof.
  assert (Hlive : live mixer_no_input).
  { unfold live. repeat constructor; is_alive. }
  assert (Hin : inputs mixer_no_input = []) by reflexivity.
  assert (Hout : outputs mixer_no_input <> []) by discriminate.
  assert (Hcap : vsize (outputs mixer_no_input) <= MIXER_OUTPUTS).
  { vm_compute. discriminate. }
  do 4 (split; [assumption|]).
  destruct (mixer_update_no_input mixer_no_input Hlive Hin Hout Hcap)
    as (w' & Hrun & Hzero).
  exists w'. split; [exact Hrun|]. apply Hzero. left.
Defined.

Lemma live_touched (w : world Reactor.t) :
  live w -> Forall (alive w) (touched w).
Proof.
  unfold live, touched. rewrite !Forall_app. intros [Hin Hout].
  split; now apply Forall_take.
Qed.

(** The successful run of the reactor, from its preconditions. *)
Lemma reactor_update_ok (w : world Reactor.t) :
  ReactorCalls.inv w -> live w -> inputs w <> [] ->
  vsize (outputs w) = Device.outputAmount (base (self w)) ->
  exists w',
    Reactor.updateOutputs w = (Ret tt, w') /\ reactor_run w (Ret tt) w'.
Proof.
  intros Hinv Hlive Hin Hsz.
  destruct (reactor_outputAmount_range w Hinv) as [Hid Hrange].
  destruct Hinv as (Hia & Hoa & _).
  pose proof (reactor_update_run w) as Hrun.
  destruct (Reactor.updateOutputs w) as [r w']. cbn [fst snd] in Hrun.
  destruct Hrun as [E | _ Hbad | i more v o os | i more v o0 o1 os
                   | w' _ _ Hdead _ | w' _ _ Hshort _];
    try contradiction.
  - rewrite Hid in Hbad. contradiction.
  - eexists. split; [reflexivity|]. eapply run_transfer; eassumption.
  - eexists. split; [reflexivity|]. eapply run_split; eassumption.
  - destruct Hdead. now apply live_touched.
  - rewrite Hsz, Hoa in Hshort. destruct (Reactor.isDoubleOutput (self w)); lia.
Qed.

Lemma singleton_of_vsize {A : Type} (x : A) (v : list A) :
  vsize (x :: v) = 1 -> v = [].
Proof. unfold vsize. destruct v; [done|cbn; lia]. Qed.

Lemma pair_of_vsize {A : Type} (x y : A) (v : list A) :
  vsize (x :: y :: v) = 2 -> v = [].
Proof. unfold vsize. destruct v; [done|cbn; lia]. Qed.

(** C2. A reactor with its one input attached, of mass-flow [v], and as
    many outputs attached as its mode asks for, sets its one output to [v]
    in single mode and both its outputs to [v / 2] in double mode.  Mass is
    conserved up to floating-point rounding: the two halves add up to [v]
    itself when [v] can be halved without rounding (every zero, infinity
    and NaN, every [v] of magnitude at least [2^-1021], every even multiple
    of [2^-1074]); for the other doubles their sum is a neighbour of [v],
    off by [2^-1074], the least positive double; and for every finite [v]
    the sum passes the check of the tests,
    [abs(sum - v) < POSSIBLE_ERROR]. *)
Theorem reactor_update_transfer (w : world Reactor.t) (i : loc) (v : float) :
  ReactorCalls.inv w -> live w ->
  inputs w = [i] -> flow w i = Some v ->
  vsize (outputs w) = Device.outputAmount (base (self w)) ->
  exists w',
    Reactor.updateOutputs w = (Ret tt, w')
    /\ (Reactor.isDoubleOutput (self w) = false ->
        exists o, outputs w = [o] /\ flow w' o = Some v)
    /\ (Reactor.isDoubleOutput (self w) = true ->
        exists o1 o2,
          outputs w = [o1; o2]
          /\ flow w' o1 = Some (v / 2)%float
          /\ flow w' o2 = Some (v / 2)%float
          /\ (exact_half v = true -> (v / 2 + v / 2)%float = v)
          /\ (exact_half v = false ->
              abs (v / 2 + v / 2 - v)%float = 0x1p-1074%float)
          /\ (is_finite v = true ->
              (abs (v / 2 + v / 2 - v) <? POSSIBLE_ERROR)%float = true)).
Proof.
  intros Hinv Hlive Hin Hv Hsz.
  destruct (reactor_update_ok w Hinv Hlive) as (w' & Hrun & Hrel);
    [rewrite Hin; discriminate | exact Hsz |].
  exists w'. split; [exact Hrun|].
  destruct Hinv as (_ & Hoa & _). rewrite Hoa in Hsz.
  inversion Hrel as [ | | i' more v' o os Hi _ Hv' Hmode Ho Hlo
                      | i' more v' o0 o1 os Hi _ Hv' Hmode Ho Hl0 Hl1 | | ]; subst;
    rewrite Hin in Hi; injection Hi as <- <-;
    rewrite Hv in Hv'; injection Hv' as <-;
    rewrite Hmode, Ho in Hsz.
  - split; [|congruence]. intros _.
    rewrite (singleton_of_vsize _ _ Hsz) in *. exists o. split; [exact Ho|].
    apply flow_assign_in; [left | exact Hlo].
  - split; [congruence|]. intros _.
    rewrite (pair_of_vsize _ _ _ Hsz) in *. exists o0, o1.
    split; [exact Ho|]. repeat split.
    + apply flow_assign_in; [left | exact Hl0].
    + apply flow_assign_in; [right; left | exact Hl1].
    + apply half_plus_half.
    + apply half_plus_half_rounded.
    + apply half_plus_half_near.
Qed.

(** Facts about a wired world of the tests, by evaluation. *)
Ltac by_eval :=
  lazymatch goal with
  | |- live _ => unfold live; repeat constructor; is_alive
  | |- ReactorCalls.inv _ => vm_compute; repeat split; discriminate
  | |- MixerCalls.inv _ _ => vm_compute; repeat split; discriminate
  | |- _ <= _ => vm_compute; discriminate
  | |- _ <> _ => discriminate
  | |- _ = _ => vm_compute; reflexivity
  end.

Lemma reactor_update_transfer_witness :
  let w1 := reactor_single 20 in
  let w2 := reactor_double 30 in
  let w3 := reactor_double 0x1p-1074 in
  (ReactorCalls.inv w1 /\ live w1 /\ inputs w1 = [1%positive]
   /\ flow w1 1%positive = Some 20%float
   /\ vsize (outputs w1) = Device.outputAmount (base (self w1))
   /\ exists w', Reactor.updateOutputs w1 = (Ret tt, w')
                 /\ flow w' 2%positive = Some 20%float)
  /\ (ReactorCalls.inv w2 /\ live w2 /\ inputs w2 = [1%positive]
      /\ flow w2 1%positive = Some 30%float
      /\ vsize (outputs w2) = Device.outputAmount (base (self w2))
      /\ exact_half 30 = true
      /\ exists w', Reactor.updateOutputs w2 = (Ret tt, w')
                    /\ flow w' 2%positive = Some 15%float
                    /\ flow w' 3%positive = Some 15%float
                    /\ (30 / 2 + 30 / 2)%float = 30%float)
  /\ (ReactorCalls.inv w3 /\ live w3 /\ inputs w3 = [1%positive]
      /\ flow w3 1%positive = Some 0x1p-1074%float
      /\ vsize (outputs w3) = Device.outputAmount (base (self w3))
      /\ exact_half 0x1p-1074 = false
      /\ is_finite 0x1p-1074 = true
      /\ exists w', Reactor.updateOutputs w3 = (Ret tt, w')
                    /\ flow w' 2%positive = Some 0%float
                    /\ flow w' 3%positive = Some 0%float
                    /\ abs (0x1p-1074 / 2 + 0x1p-1074 / 2 - 0x1p-1074)%float
                       = 0x1p-1074%float
                    /\ (abs (0x1p-1074 / 2 + 0x1p-1074 / 2 - 0x1p-1074)
                        <? POSSIBLE_ERROR)%float = true).
Proof.
  intros w1 w2 w3. split; [|split].
  - assert (Hinv : ReactorCalls.inv w1) by by_eval.
    assert (Hlive : live w1) by by_eval.
    assert (Hin : inputs w1 = [1%positive]) by by_eval.
    assert (Hv : flow w1 1%positive = Some 20%float) by by_eval.
    assert (Hsz : vsize (outputs w1) = Device.outputAmount (base (self w1)))
      by by_eval.
    do 5 (split; [assumption|]).
    destruct (reactor_update_transfer w1 1%positive 20 Hinv Hlive Hin Hv Hsz)
      as (w' & Hrun & Hsingle & _).
    exists w'. split; [exact Hrun|].
    destruct (Hsingle eq_refl) as (o & Ho & Hflow).
    injection Ho as <-. exact Hflow.
  - assert (Hinv : ReactorCalls.inv w2) by by_eval.
    assert (Hlive : live w2) by by_eval.
    assert (Hin : inputs w2 = [1%positive]) by by_eval.
    assert (Hv : flow w2 1%positive = Some 30%float) by by_eval.
    assert (Hsz : vsize (outputs w2) = Device.outputAmount (base (self w2)))
      by by_eval.
    assert (Hex : exact_half 30 = true) by by_eval.
    do 6 (split; [assumption|]).
    destruct (reactor_update_transfer w2 1%positive 30 Hinv Hlive Hin Hv Hsz)
      as (w' & Hrun & _ & Hdouble).
    exists w'. split; [exact Hrun|].
    destruct (Hdouble eq_refl) as (o1 & o2 & Ho & Hf1 & Hf2 & Hsum & _).
    injection Ho as <- <-.
    split; [exact Hf1|]. split; [exact Hf2|]. exact (Hsum Hex).
  - assert (Hinv : ReactorCalls.inv w3) by by_eval.
    assert (Hlive : live w3) by by_eval.
    assert (Hin : inputs w3 = [1%positive]) by by_eval.
    assert (Hv : flow w3 1%positive = Some 0x1p-1074%float) by by_eval.
    assert (Hsz : vsize (outputs w3) = Device.outputAmount (base (self w3)))
      by by_eval.
    assert (Hex : exact_half 0x1p-1074 = false) by by_eval.
    assert (Hfin : is_finite 0x1p-1074 = true) by by_eval.
    do 7 (split; [assumption|]).
    destruct (reactor_update_transfer w3 1%positive 0x1p-1074 Hinv Hlive Hin Hv Hsz)
      as (w' & Hrun & _ & Hdouble).
    exists w'. split; [exact Hrun|].
    destruct (Hdouble eq_refl) as (o1 & o2 & Ho & Hf1 & Hf2 & _ & Hoff & Hnear).
    injection Ho as <- <-.
    split; [exact Hf1|]. split; [exact Hf2|].
    split; [exact (Hoff Hex) | exact (Hnear Hfin)].
Defined.

(** The rounding is real: the half of the least positive double rounds to
    zero, both outputs receive zero, and their sum differs from the input,
    by the input itself, [2^-1074]. *)
Lemma reactor_split_subnormal :
  let v := 0x1p-1074%float in
  let w := reactor_double v in
  ReactorCalls.inv w /\ live w /\ inputs w = [1%positive]
  /\ flow w 1%positive = Some v
  /\ vsize (outputs w) = Device.outputAmount (base (self w))
  /\ Reactor.isDoubleOutput (self w) = true
  /\ outputs w = [2%positive; 3%positive]
  /\ exists w' x1 x2,
       Reactor.updateOutputs w = (Ret tt, w')
       /\ flow w' 2%positive = Some x1
       /\ flow w' 3%positive = Some x2
       /\ (x1 + x2)%float <> v.
Proof.
  intros v w. do 7 (split; [by_eval|]).
  exists (snd (Reactor.updateOutputs w)), 0%float, 0%float.
  do 3 (split; [by_eval|]).
  intros H. apply (f_equal Prim2SF) in H. vm_compute in H. discriminate H.
Qed.

(** C3. [updateOutputs] throws a precondition violation exactly when the
    wiring is absent or incomplete: for a mixer, when no output is attached;
    for a reactor, when it does not hold exactly one input or the number of
    attached outputs differs from [outputAmount].  A call that throws leaves
    the streams and the device as they were. *)
Theorem update_throws_iff_unwired :
  (forall (w w' : world Mixer.t) (r : outcome unit),
      live w -> Mixer.updateOutputs w = (r, w') ->
      ((exists e, r = Throw e /\ error_kind_of e = Some PreconditionViolation)
       <-> outputs w = [])
      /\ (forall e, r = Throw e ->
            error_kind_of e = Some PreconditionViolation /\ w' = w))
  /\ (forall (w w' : world Reactor.t) (r : outcome unit),
      ReactorCalls.inv w -> Reactor.updateOutputs w = (r, w') ->
      ((exists e, r = Throw e /\ error_kind_of e = Some PreconditionViolation)
       <-> (length (inputs w) <> 1%nat
            \/ vsize (outputs w) <> Device.outputAmount (base (self w))))
      /\ (forall e, r = Throw e ->
            error_kind_of e = Some PreconditionViolation /\ w' = w)).
Proof.
  split.
  - intros w w' r Hlive Hrun.
    destruct (mixer_update_run w)
      as [(Hdead & _) | (ms & _ & [(E & Heq) | [(Hne & _ & Heq) | (_ & Hdead & _)]])].
    + destruct Hdead. now apply live_inputs.
    + rewrite Heq in Hrun. injection Hrun as <- <-. split.
      * split; [intros _; exact E|]. intros _. eexists. split; reflexivity.
      * intros e [= <-]. split; reflexivity.
    + rewrite Heq in Hrun. injection Hrun as <- <-. split.
      * split; [intros (e & He & _); discriminate He | intros E; contradiction].
      * intros e He. discriminate He.
    + destruct Hdead. now apply live_outputs.
  - intros w w' r Hinv Hrun.
    destruct (reactor_outputAmount_range w Hinv) as [Hid _].
    destruct Hinv as (Hia & _ & Hin & _). rewrite Hia in Hin.
    pose proof (reactor_update_run w) as Hrel. rewrite Hrun in Hrel.
    cbn [fst snd] in Hrel.
    assert (Hone : inputs w <> [] -> length (inputs w) = 1%nat).
    { unfold vsize in Hin. destruct (inputs w); [done|cbn in *; lia]. }
    destruct Hrel as [E | Hne Hbad | i more v o os Hi Hsz | i more v o0 o1 os Hi Hsz
                     | w' Hne Hsz | w' Hne Hsz];
      try rewrite Hid in Hbad; try rewrite Hid in Hsz.
    + split.
      * split; [intros _; left; now rewrite E|]. intros _. eexists. split; reflexivity.
      * intros e [= <-]. split; reflexivity.
    + split.
      * split; [intros _; now right|]. intros _. eexists. split; reflexivity.
      * intros e [= <-]. split; reflexivity.
    + split; [|intros e He; discriminate He].
      split; [intros (e & He & _); discriminate He|].
      intros [Hl | Hs]; [|contradiction]. destruct Hl. apply Hone. now rewrite Hi.
    + split; [|intros e He; discriminate He].
      split; [intros (e & He & _); discriminate He|].
      intros [Hl | Hs]; [|contradiction]. destruct Hl. apply Hone. now rewrite Hi.
    + split; [|intros e He; discriminate He].
      split; [intros (e & He & _); discriminate He|].
      intros [Hl | Hs]; [|contradiction]. destruct Hl. now apply Hone.
    + split; [|intros e He; discriminate He].
      split; [intros (e & He & _); discriminate He|].
      intros [Hl | Hs]; [|contradiction]. destruct Hl. now apply Hone.
Qed.

Lemma update_throws_iff_unwired_witness :
  (live mixer_unwired
   /\ Mixer.updateOutputs mixer_unwired
      = (Throw (Exn_string "Should set outputs before update"), mixer_unwired)
   /\ outputs mixer_unwired = []
   /\ error_kind_of (Exn_string "Should set outputs before update")
      = Some PreconditionViolation)
  /\ (ReactorCalls.inv reactor_one_of_two
      /\ Reactor.updateOutputs reactor_one_of_two
         = (Throw (Exn_string "Output streams not properly set for reactor"),
            reactor_one_of_two)
      /\ error_kind_of (Exn_string "Output streams not properly set for reactor")
         = Some PreconditionViolation
      /\ (length (inputs reactor_one_of_two) <> 1%nat
          \/ vsize (outputs reactor_one_of_two)
             <> Device.outputAmount (base (self reactor_one_of_two)))).
Proof.
  destruct update_throws_iff_unwired as [Hmixer Hreactor]. split.
  - assert (Hlive : live mixer_unwired) by (unfold live; constructor).
    assert (Hrun : Mixer.updateOutputs mixer_unwired
                   = (Throw (Exn_string "Should set outputs before update"),
                      mixer_unwired)) by by_eval.
    destruct (Hmixer _ _ _ Hlive Hrun) as [[Hto _] Hkind].
    split; [exact Hlive|]. split; [exact Hrun|].
    split; [apply Hto; eexists; split; reflexivity|].
    apply (Hkind _ eq_refl).
  - assert (Hinv : ReactorCalls.inv reactor_one_of_two) by by_eval.
    assert (Hrun : Reactor.updateOutputs reactor_one_of_two
                   = (Throw (Exn_string "Output streams not properly set for reactor"),
                      reactor_one_of_two)) by by_eval.
    destruct (Hreactor _ _ _ Hinv Hrun) as [[Hto _] Hkind].
    split; [exact Hinv|]. split; [exact Hrun|].
    split; [apply (Hkind _ eq_refl)|].
    apply Hto. eexists. split; reflexivity.
Defined.

(** ** The methods at capacity *)

Lemma device_addInput_full {D : Type} `{Derived D} (w : world D) (s : loc) :
  is_int (Device.inputAmount (base (self w))) ->
  vsize (inputs w) = Device.inputAmount (base (self w)) ->
  DeviceMethods.addInput s w = (Throw (Exn_cstr "INPUT STREAM LIMIT!"), w).
Proof.
  intros Hint Hfull. rewrite device_addInput_run.
  rewrite to_size_t_int, <- Hfull, Z.ltb_irrefl;
    [reflexivity | exact Hint | rewrite <- Hfull; apply vsize_nonneg].
Qed.

Lemma device_addOutput_full {D : Type} `{Derived D} (w : world D) (s : loc) :
  is_int (Device.outputAmount (base (self w))) ->
  vsize (outputs w) = Device.outputAmount (base (self w)) ->
  DeviceMethods.addOutput s w = (Throw (Exn_cstr "OUTPUT STREAM LIMIT!"), w).
Proof.
  intros Hint Hfull. rewrite device_addOutput_run.
  rewrite to_size_t_int, <- Hfull, Z.ltb_irrefl;
    [reflexivity | exact Hint | rewrite <- Hfull; apply vsize_nonneg].
Qed.

Lemma mixer_addInput_full (w : world Mixer.t) (s : loc) :
  is_int (Mixer._inputs_count (self w)) ->
  vsize (inputs w) = Mixer._inputs_count (self w) ->
  Mixer.addInput s w = (Throw (Exn_string "Too much inputs"), w).
Proof.
  intros Hint Hfull. rewrite mixer_addInput_run.
  rewrite to_size_t_int, <- Hfull, Z.eqb_refl;
    [reflexivity | exact Hint | rewrite <- Hfull; apply vsize_nonneg].
Qed.

Lemma mixer_addOutput_full (w : world Mixer.t) (s : loc) :
  vsize (outputs w) = MIXER_OUTPUTS ->
  Mixer.addOutput s w = (Throw (Exn_string "Too much outputs"), w).
Proof.
  intros Hfull. rewrite mixer_addOutput_run.
  change (to_size_t MIXER_OUTPUTS) with MIXER_OUTPUTS.
  now rewrite Hfull, Z.eqb_refl.
Qed.

Lemma reachable_after {D C : Type} (run : C -> M (world D) unit) (init : D)
      (cs : list C) (w w' : world D) :
  reachable_from run init w -> after run cs w = Some w' ->
  reachable_from run init w'.
Proof.
  revert w. induction cs as [|c cs IH]; intros w Hw Hafter; cbn [after] in Hafter.
  - now injection Hafter as <-.
  - destruct (run c w) as [r w1] eqn:Hrun.
    assert (Hstep : defined r -> reachable_from run init w1)
      by (intros Hd; exact (reach_call run init w c r w1 Hw Hrun Hd)).
    destruct r; [apply (IH w1) | apply (IH w1) | discriminate Hafter];
      try exact Hafter; apply Hstep; exact I.
Qed.

(** C4. [addInput] on a device that already holds as many inputs as its
    capacity throws a capacity error that names the input and changes
    nothing; [addOutput] at the capacity of the outputs does the same for
    the output.  The capacity is [inputAmount] and [outputAmount] for the
    methods of [Device] (the reactor's) and [_inputs_count] and
    [MIXER_OUTPUTS] for the methods of [Mixer]. *)
Theorem add_at_capacity_rejected :
  (forall (D : Type) (HD : Derived D) (w : world D) (s : loc),
      is_int (Device.inputAmount (base (self w))) ->
      vsize (inputs w) = Device.inputAmount (base (self w)) ->
      exists e, DeviceMethods.addInput s w = (Throw e, w)
                /\ error_kind_of e = Some (CapacityExceeded Input))
  /\ (forall (D : Type) (HD : Derived D) (w : world D) (s : loc),
      is_int (Device.outputAmount (base (self w))) ->
      vsize (outputs w) = Device.outputAmount (base (self w)) ->
      exists e, DeviceMethods.addOutput s w = (Throw e, w)
                /\ error_kind_of e = Some (CapacityExceeded Output))
  /\ (forall (w : world Mixer.t) (s : loc),
      is_int (Mixer._inputs_count (self w)) ->
      vsize (inputs w) = Mixer._inputs_count (self w) ->
      exists e, Mixer.addInput s w = (Throw e, w)
                /\ error_kind_of e = Some (CapacityExceeded Input))
  /\ (forall (w : world Mixer.t) (s : loc),
      vsize (outputs w) = MIXER_OUTPUTS ->
      exists e, Mixer.addOutput s w = (Throw e, w)
                /\ error_kind_of e = Some (CapacityExceeded Output)).
Proof.
  repeat apply conj.
  - intros D HD w s Hint Hfull. rewrite (device_addInput_full w s Hint Hfull).
    eexists. split; reflexivity.
  - intros D HD w s Hint Hfull. rewrite (device_addOutput_full w s Hint Hfull).
    eexists. split; reflexivity.
  - intros w s Hint Hfull. rewrite (mixer_addInput_full w s Hint Hfull).
    eexists. split; reflexivity.
  - intros w s Hfull. rewrite (mixer_addOutput_full w s Hfull).
    eexists. split; reflexivity.
Qed.

Lemma add_at_capacity_rejected_witness :
  (is_int (Device.inputAmount (base (self (reactor_single 20))))
   /\ vsize (inputs (reactor_single 20))
      = Device.inputAmount (base (self (reactor_single 20)))
   /\ exists e, DeviceMethods.addInput 3%positive (reactor_single 20)
                = (Throw e, reactor_single 20)
                /\ error_kind_of e = Some (CapacityExceeded Input))
  /\ (is_int (Device.outputAmount (base (self (reactor_single 20))))
      /\ vsize (outputs (reactor_single 20))
         = Device.outputAmount (base (self (reactor_single 20)))
      /\ exists e, DeviceMethods.addOutput 3%positive (reactor_single 20)
                   = (Throw e, reactor_single 20)
                   /\ error_kind_of e = Some (CapacityExceeded Output))
  /\ (is_int (Mixer._inputs_count (self mixer_wired))
      /\ vsize (inputs mixer_wired) = Mixer._inputs_count (self mixer_wired)
      /\ exists e, Mixer.addInput 3%positive mixer_wired = (Throw e, mixer_wired)
                   /\ error_kind_of e = Some (CapacityExceeded Input))
  /\ (vsize (outputs mixer_wired) = MIXER_OUTPUTS
      /\ exists e, Mixer.addOutput 2%positive mixer_wired = (Throw e, mixer_wired)
                   /\ error_kind_of e = Some (CapacityExceeded Output)).
Proof.
  destruct add_at_capacity_rejected as (Hin & Hout & Hmin & Hmout).
  assert (Hint : forall n, n = 1 \/ n = 2 -> is_int n).
  { intros n [-> | ->]; vm_compute; split; discriminate. }
  split; [|split; [|split]].
  - assert (H1 : is_int (Device.inputAmount (base (self (reactor_single 20)))))
      by (apply Hint; left; reflexivity).
    assert (H2 : vsize (inputs (reactor_single 20))
                 = Device.inputAmount (base (self (reactor_single 20))))
      by reflexivity.
    split; [exact H1|]. split; [exact H2|]. exact (Hin _ _ _ _ H1 H2).
  - assert (H1 : is_int (Device.outputAmount (base (self (reactor_single 20)))))
      by (apply Hint; left; reflexivity).
    assert (H2 : vsize (outputs (reactor_single 20))
                 = Device.outputAmount (base (self (reactor_single 20))))
      by reflexivity.
    split; [exact H1|]. split; [exact H2|]. exact (Hout _ _ _ _ H1 H2).
  - assert (H1 : is_int (Mixer._inputs_count (self mixer_wired)))
      by (apply Hint; right; reflexivity).
    assert (H2 : vsize (inputs mixer_wired) = Mixer._inputs_count (self mixer_wired))
      by reflexivity.
    split; [exact H1|]. split; [exact H2|]. exact (Hmin _ _ H1 H2).
  - assert (H2 : vsize (outputs mixer_wired) = MIXER_OUTPUTS) by reflexivity.
    split; [exact H2|]. exact (Hmout _ _ H2).
Defined.

(** C5. In every state that construction and the public methods reach, a
    device holds at most as many inputs and outputs as its capacities, and
    a call that would exceed a capacity throws and appends nothing.  The
    mixer is built with a count [N] that is not negative. *)
Theorem capacity_invariant :
  (forall (N : Z) (w : world Mixer.t),
      0 <= N <= INT_MAX -> MixerCalls.reachable N w ->
      vsize (inputs w) <= N
      /\ vsize (outputs w) <= MIXER_OUTPUTS
      /\ (forall s, vsize (inputs w) = N ->
            exists e, Mixer.addInput s w = (Throw e, w))
      /\ (forall s, vsize (outputs w) = MIXER_OUTPUTS ->
            exists e, Mixer.addOutput s w = (Throw e, w)))
  /\ (forall (b : bool) (w : world Reactor.t),
      ReactorCalls.reachable b w ->
      Device.inputAmount (base (self w)) = 1
      /\ Device.outputAmount (base (self w)) = (if b then 2 else 1)
      /\ vsize (inputs w) <= Device.inputAmount (base (self w))
      /\ vsize (outputs w) <= Device.outputAmount (base (self w))
      /\ (forall s, vsize (inputs w) = Device.inputAmount (base (self w)) ->
            exists e, DeviceMethods.addInput s w = (Throw e, w))
      /\ (forall s, vsize (outputs w) = Device.outputAmount (base (self w)) ->
            exists e, DeviceMethods.addOutput s w = (Throw e, w))).
Proof.
  split.
  - intros N w HN Hreach.
    destruct (mixer_reachable_inv N w HN Hreach) as (Hc & _ & _ & Hin & Hout).
    split; [exact Hin|]. split; [exact Hout|]. split.
    + intros s Hfull. eexists. apply mixer_addInput_full.
      * rewrite Hc. unfold is_int, INT_MIN. lia.
      * now rewrite Hc.
    + intros s Hfull. eexists. now apply mixer_addOutput_full.
  - intros b w Hreach.
    destruct (reactor_reachable_inv b w Hreach) as [(Hia & Hoa & Hin & Hout) Hb].
    rewrite Hb in Hoa.
    split; [exact Hia|]. split; [exact Hoa|]. split; [exact Hin|].
    split; [exact Hout|]. split.
    + intros s Hfull. eexists. apply device_addInput_full; [|exact Hfull].
      rewrite Hia. unfold is_int, INT_MIN, INT_MAX. lia.
    + intros s Hfull. eexists. apply device_addOutput_full; [|exact Hfull].
      rewrite Hoa. unfold is_int, INT_MIN, INT_MAX. destruct b; lia.
Qed.

Lemma mixer_wired_reachable : MixerCalls.reachable 2 mixer_wired.
Proof.
  apply (reachable_after _ _
           [MixerCalls.AddInput 1%positive; MixerCalls.AddInput 2%positive;
            MixerCalls.AddOutput 3%positive]
           (World (three_streams 10 5 0) (Mixer.new 2)));
    [apply reach_new | vm_compute; reflexivity].
Qed.

Lemma reactor_double_reachable (v : float) :
  ReactorCalls.reachable true (reactor_double v).
Proof.
  apply (reachable_after _ _
           [ReactorCalls.AddInput 1%positive; ReactorCalls.AddOutput 2%positive;
            ReactorCalls.AddOutput 3%positive]
           (World (three_streams v 0 0) (Reactor.new true)));
    [apply reach_new | vm_compute; reflexivity].
Qed.

Lemma capacity_invariant_witness :
  (0 <= 2 <= INT_MAX
   /\ MixerCalls.reachable 2 mixer_wired
   /\ vsize (inputs mixer_wired) <= 2
   /\ vsize (outputs mixer_wired) <= MIXER_OUTPUTS
   /\ exists e, Mixer.addInput 3%positive mixer_wired = (Throw e, mixer_wired))
  /\ (ReactorCalls.reachable true (reactor_double 30)
      /\ vsize (outputs (reactor_double 30))
         <= Device.outputAmount (base (self (reactor_double 30)))
      /\ exists e, DeviceMethods.addOutput 1%positive (reactor_double 30)
                   = (Throw e, reactor_double 30)).
Proof.
  destruct capacity_invariant as [Hmixer Hreactor]. split.
  - assert (HN : 0 <= 2 <= INT_MAX) by (vm_compute; split; discriminate).
    destruct (Hmixer 2 mixer_wired HN mixer_wired_reachable)
      as (Hin & Hout & Hfull & _).
    split; [exact HN|]. split; [exact mixer_wired_reachable|].
    split; [exact Hin|]. split; [exact Hout|].
    apply Hfull. reflexivity.
  - destruct (Hreactor true (reactor_double 30) (reactor_double_reachable 30))
      as (_ & _ & _ & Hout & _ & Hfull).
    split; [exact (reactor_double_reachable 30)|]. split; [exact Hout|].
    apply Hfull. reflexivity.
Defined.

(** ** A successful run of the reactor is the only run *)

Lemma reactor_run_ret_unique (w w1 w2 : world Reactor.t) (r : outcome unit) :
  reactor_run w (Ret tt) w1 -> reactor_run w r w2 -> r = Ret tt /\ w2 = w1.
Proof.
  intros H1 H2.
  inversion H1 as [ | | i more v o os Hi Hsz Hv Hmode Ho Hl
                    | i more v o0 o1 os Hi Hsz Hv Hmode Ho Hl0 Hl1 | | ]; subst;
    inversion H2 as [ E | _ Hbad | i' more' v' o' os' Hi' _ Hv' Hmode' Ho' _
                    | i' more' v' o0' o1' os' Hi' _ Hv' Hmode' Ho' _ _
                    | w' _ _ Hdead _ | w' _ _ Hshort _ ]; subst;
    try congruence.
  - split; [reflexivity|]. congruence.
  - destruct Hdead. unfold touched. rewrite Hi, Hmode, Ho. cbn.
    repeat constructor; [|exact Hl].
    apply flow_is_Some. rewrite Hv. eauto.
  - rewrite Hmode, Ho in Hshort. unfold vsize in Hshort. cbn in Hshort. lia.
  - split; [reflexivity|]. congruence.
  - destruct Hdead. unfold touched. rewrite Hi, Hmode, Ho. cbn.
    repeat constructor; [|exact Hl0|exact Hl1].
    apply flow_is_Some. rewrite Hv. eauto.
  - rewrite Hmode, Ho in Hshort. unfold vsize in Hshort. cbn in Hshort. lia.
Qed.

Lemma reactor_update_of_run (w w1 : world Reactor.t) :
  reactor_run w (Ret tt) w1 -> Reactor.updateOutputs w = (Ret tt, w1).
Proof.
  intros H1. pose proof (reactor_update_run w) as H2.
  destruct (Reactor.updateOutputs w) as [r w2]. cbn [fst snd] in H2.
  destruct (reactor_run_ret_unique w w1 w2 r H1 H2) as [-> ->]. reflexivity.
Qed.

Lemma alive_assign {D : Type} (x : float) (ps : list loc) (w : world D) (d : D)
      (q : loc) :
  alive w q -> alive (World (assign x ps (streams w)) d) q.
Proof. unfold alive. cbn [streams]. now rewrite assign_is_Some. Qed.

Lemma flows_transfer {D : Type} (w w1 : world D) (ps : list loc)
      (ms : list float) :
  Forall2 (fun p m => flow w p = Some m) ps ms ->
  (forall p, p ∈ ps -> flow w1 p = flow w p) ->
  Forall2 (fun p m => flow w1 p = Some m) ps ms.
Proof.
  induction 1 as [|p m ps ms Hp _ IH]; intros Hsame; constructor.
  - rewrite Hsame; [exact Hp | left].
  - apply IH. intros q Hq. apply Hsame. now right.
Qed.

Lemma flows_alive {D : Type} (w : world D) (ps : list loc) (ms : list float) :
  Forall2 (fun p m => flow w p = Some m) ps ms -> Forall (alive w) ps.
Proof.
  induction 1 as [|p m ps ms Hp _ IH]; constructor; [|exact IH].
  apply flow_is_Some. rewrite Hp. eauto.
Qed.

(** C7. When [updateOutputs] succeeds and has left the flows of the inputs
    as they were, a second call succeeds too and changes nothing: the
    outputs carry the flows the first call gave them. *)
Theorem update_idempotent :
  (forall (w w1 : world Mixer.t),
      Mixer.updateOutputs w = (Ret tt, w1) ->
      (forall i, i ∈ inputs w -> flow w1 i = flow w i) ->
      exists w2,
        Mixer.updateOutputs w1 = (Ret tt, w2)
        /\ (forall o, o ∈ outputs w -> flow w2 o = flow w1 o)
        /\ w2 = w1)
  /\ (forall (w w1 : world Reactor.t),
      Reactor.updateOutputs w = (Ret tt, w1) ->
      (forall i, i ∈ inputs w -> flow w1 i = flow w i) ->
      exists w2,
        Reactor.updateOutputs w1 = (Ret tt, w2)
        /\ (forall o, o ∈ outputs w -> flow w2 o = flow w1 o)
        /\ w2 = w1).
Proof.
  split.
  - intros w w1 Hrun Hsame. exists w1. split; [|now split].
    destruct (mixer_update_run w)
      as [(_ & Heq) | (ms & Hms & [(_ & Heq) | [(Hne & Hall & Heq) | (_ & _ & w' & Heq & _)]])];
      rewrite Heq in Hrun; try discriminate Hrun.
    injection Hrun as <-.
    set (x := (sum_flows ms / of_size (vsize (outputs w)))%float).
    set (w1 := World (assign x (outputs w) (streams w)) (self w)) in *.
    assert (Hms1 : input_flows w1 ms).
    { unfold input_flows in *. change (inputs w1) with (inputs w).
      now apply (flows_transfer w). }
    assert (Hlive1 : live w1).
    { unfold live. change (inputs w1) with (inputs w).
      change (outputs w1) with (outputs w). apply Forall_app. split.
      - apply (flows_alive w1 _ ms). exact Hms1.
      - eapply Forall_impl; [exact Hall|]. intros o. apply alive_assign. }
    rewrite (mixer_update_ok w1 ms Hlive1 Hms1 Hne).
    change (outputs w1) with (outputs w). change (streams w1) with (assign x (outputs w) (streams w)).
    fold x. now rewrite assign_idempotent.
  - intros w w1 Hrun Hsame. exists w1. split; [|now split].
    pose proof (reactor_update_run w) as Hrel. rewrite Hrun in Hrel.
    cbn [fst snd] in Hrel.
    inversion Hrel as [ | | i more v o os Hi Hsz Hv Hmode Ho Hl
                      | i more v o0 o1 os Hi Hsz Hv Hmode Ho Hl0 Hl1 | | ].
    + subst w1. set (w1' := World (assign v [o] (streams w)) (self w)) in *.
      apply reactor_update_of_run.
      assert (Hagain : reactor_run w1' (Ret tt)
                         (World (assign v [o] (streams w1')) (self w1'))).
      { apply (run_transfer w1' i more v o os); try assumption.
        - rewrite Hsame; [exact Hv | rewrite Hi; left].
        - now apply alive_assign. }
      unfold w1' at 2 3 in Hagain.
      cbn [streams self] in Hagain.
      rewrite assign_idempotent in Hagain. exact Hagain.
    + subst w1.
      set (w1' := World (assign (v / 2) [o0; o1] (streams w)) (self w)) in *.
      apply reactor_update_of_run.
      assert (Hagain : reactor_run w1' (Ret tt)
                         (World (assign (v / 2) [o0; o1] (streams w1')) (self w1'))).
      { apply (run_split w1' i more v o0 o1 os); try assumption.
        - rewrite Hsame; [exact Hv | rewrite Hi; left].
        - now apply alive_assign.
        - now apply alive_assign. }
      unfold w1' at 2 3 in Hagain. cbn [streams self] in Hagain.
      rewrite assign_idempotent in Hagain. exact Hagain.
Qed.

Ltac by_cases_in H :=
  repeat (apply elem_of_cons in H as [-> | H]; [vm_compute; reflexivity|]);
  inversion H.

Lemma update_idempotent_witness :
  let m1 := snd (Mixer.updateOutputs mixer_wired) in
  let r1 := snd (Reactor.updateOutputs (reactor_double 30)) in
  (Mixer.updateOutputs mixer_wired = (Ret tt, m1)
   /\ (forall i, i ∈ inputs mixer_wired -> flow m1 i = flow mixer_wired i)
   /\ Mixer.updateOutputs m1 = (Ret tt, m1)
   /\ flow m1 3%positive = Some 15%float)
  /\ (Reactor.updateOutputs (reactor_double 30) = (Ret tt, r1)
      /\ (forall i, i ∈ inputs (reactor_double 30) ->
            flow r1 i = flow (reactor_double 30) i)
      /\ Reactor.updateOutputs r1 = (Ret tt, r1)
      /\ flow r1 2%positive = Some 15%float).
Proof.
  intros m1 r1. destruct update_idempotent as [Hmixer Hreactor]. split.
  - assert (Hrun : Mixer.updateOutputs mixer_wired = (Ret tt, m1)) by by_eval.
    assert (Hsame : forall i, i ∈ inputs mixer_wired -> flow m1 i = flow mixer_wired i).
    { intros i Hi. change (inputs mixer_wired) with [1%positive; 2%positive] in Hi.
      by_cases_in Hi. }
    destruct (Hmixer mixer_wired m1 Hrun Hsame) as (w2 & Hagain & _ & ->).
    split; [exact Hrun|]. split; [exact Hsame|]. split; [exact Hagain|]. by_eval.
  - assert (Hrun : Reactor.updateOutputs (reactor_double 30) = (Ret tt, r1))
      by by_eval.
    assert (Hsame : forall i, i ∈ inputs (reactor_double 30) ->
                      flow r1 i = flow (reactor_double 30) i).
    { intros i Hi. change (inputs (reactor_double 30)) with [1%positive] in Hi.
      by_cases_in Hi. }
    destruct (Hreactor (reactor_double 30) r1 Hrun Hsame) as (w2 & Hagain & _ & ->).
    split; [exact Hrun|]. split; [exact Hsame|]. split; [exact Hagain|]. by_eval.
Defined.

(** C8. [getIsDoubleOutput] returns the argument the reactor was built
    with and changes nothing, and no call of [addInput], [addOutput],
    [updateOutputs] or [getIsDoubleOutput], whatever its outcome, changes
    what it returns. *)
Theorem getIsDoubleOutput_stable (isDoubleReactor : bool) :
  (forall h,
      Reactor.getIsDoubleOutput (World h (Reactor.new isDoubleReactor))
      = (Ret isDoubleReactor, World h (Reactor.new isDoubleReactor)))
  /\ (forall w, exists b, Reactor.getIsDoubleOutput w = (Ret b, w))
  /\ (forall c w r w',
        ReactorCalls.run c w = (r, w') ->
        fst (Reactor.getIsDoubleOutput w') = fst (Reactor.getIsDoubleOutput w))
  /\ (forall w,
        ReactorCalls.reachable isDoubleReactor w ->
        Reactor.getIsDoubleOutput w = (Ret isDoubleReactor, w)).
Proof.
  split; [reflexivity|]. split; [intros w; eexists; reflexivity|]. split.
  - intros c w r w' Hrun. unfold Reactor.getIsDoubleOutput. rewrite !gets_eq.
    cbn [fst]. now rewrite (reactor_run_mode c w w' r Hrun).
  - intros w Hreach. destruct (reactor_reachable_inv _ w Hreach) as [_ Hb].
    unfold Reactor.getIsDoubleOutput. now rewrite gets_eq, Hb.
Qed.

Lemma getIsDoubleOutput_stable_witness :
  ReactorCalls.reachable true (reactor_double 30)
  /\ Reactor.getIsDoubleOutput (reactor_double 30) = (Ret true, reactor_double 30)
  /\ ReactorCalls.run ReactorCalls.UpdateOutputs reactor_no_input
     = (Throw (Exn_string "Input stream not connected to reactor"), reactor_no_input)
  /\ fst (Reactor.getIsDoubleOutput reactor_no_input) = Ret false.
Proof.
  destruct (getIsDoubleOutput_stable true) as (_ & _ & _ & Hreach).
  destruct (getIsDoubleOutput_stable false) as (_ & _ & Hcall & _).
  split; [exact (reactor_double_reachable 30)|].
  split; [exact (Hreach _ (reactor_double_reachable 30))|].
  assert (Hrun : ReactorCalls.run ReactorCalls.UpdateOutputs reactor_no_input
                 = (Throw (Exn_string "Input stream not connected to reactor"),
                    reactor_no_input)) by by_eval.
  split; [exact Hrun|]. exact (Hcall _ _ _ _ Hrun).
Defined.

(** C9. When no stream is attached both as an input and as an output, a
    successful [updateOutputs] changes nothing but the mass-flows of attached
    outputs: the device, the flow of every input, the name of every stream
    and every stream that is not an attached output are as before. *)
Theorem update_frame :
  (forall (w w' : world Mixer.t),
      separate w -> Mixer.updateOutputs w = (Ret tt, w') ->
      self w' = self w
      /\ (forall i, i ∈ inputs w -> flow w' i = flow w i)
      /\ (forall p, name_of w' p = name_of w p)
      /\ (forall p, p ∉ outputs w -> streams w' !! p = streams w !! p)
      /\ dom (streams w') = dom (streams w))
  /\ (forall (w w' : world Reactor.t),
      separate w -> Reactor.updateOutputs w = (Ret tt, w') ->
      self w' = self w
      /\ (forall i, i ∈ inputs w -> flow w' i = flow w i)
      /\ (forall p, name_of w' p = name_of w p)
      /\ (forall p, p ∉ outputs w -> streams w' !! p = streams w !! p)
      /\ dom (streams w') = dom (streams w)).
Proof.
  assert (Hframe : forall (D : Type) (HD : Derived D) (w : world D) x ps,
             separate w -> (forall p, p ∈ ps -> p ∈ outputs w) ->
             let w' := World (assign x ps (streams w)) (self w) in
             self w' = self w
             /\ (forall i, i ∈ inputs w -> flow w' i = flow w i)
             /\ (forall p, name_of w' p = name_of w p)
             /\ (forall p, p ∉ outputs w -> streams w' !! p = streams w !! p)
             /\ dom (streams w') = dom (streams w)).
  { intros D HD w x ps Hsep Hsub w'. split; [reflexivity|]. split; [|split; [|split]].
    - intros i Hi. apply flow_assign_out. intros Hps. exact (Hsep i Hi (Hsub i Hps)).
    - intros p. apply name_assign.
    - intros p Hp. cbn [streams w']. rewrite lookup_assign, decide_False; [reflexivity|].
      intros Hps. exact (Hp (Hsub p Hps)).
    - apply dom_assign. }
  split.
  - intros w w' Hsep Hrun.
    destruct (mixer_update_run w)
      as [(_ & Heq) | (ms & Hms & [(_ & Heq) | [(Hne & Hall & Heq) | (_ & _ & w2 & Heq & _)]])];
      rewrite Heq in Hrun; try discriminate Hrun.
    injection Hrun as <-. now apply Hframe.
  - intros w w' Hsep Hrun.
    pose proof (reactor_update_run w) as Hrel. rewrite Hrun in Hrel.
    cbn [fst snd] in Hrel.
    inversion Hrel as [ | | i more v o os Hi Hsz Hv Hmode Ho Hl
                      | i more v o0 o1 os Hi Hsz Hv Hmode Ho Hl0 Hl1 | | ];
      apply Hframe; try exact Hsep; intros p Hp; rewrite Ho.
    + apply list_elem_of_singleton in Hp as ->. left.
    + apply elem_of_cons in Hp as [-> | Hp]; [left|].
      apply list_elem_of_singleton in Hp as ->. right. left.
Qed.

Lemma update_frame_witness :
  let m1 := snd (Mixer.updateOutputs mixer_wired) in
  let r1 := snd (Reactor.updateOutputs (reactor_double 30)) in
  (separate mixer_wired
   /\ Mixer.updateOutputs mixer_wired = (Ret tt, m1)
   /\ self m1 = self mixer_wired
   /\ flow m1 1%positive = Some 10%float
   /\ flow m1 2%positive = Some 5%float
   /\ name_of m1 3%positive = Some "s3"%string)
  /\ (separate (reactor_double 30)
      /\ Reactor.updateOutputs (reactor_double 30) = (Ret tt, r1)
      /\ self r1 = self (reactor_double 30)
      /\ flow r1 1%positive = Some 30%float
      /\ name_of r1 2%positive = Some "s2"%string).
Proof.
  intros m1 r1. destruct update_frame as [Hmixer Hreactor]. split.
  - assert (Hsep : separate mixer_wired).
    { intros p Hp Hq. change (outputs mixer_wired) with [3%positive] in Hq.
      change (inputs mixer_wired) with [1%positive; 2%positive] in Hp.
      apply list_elem_of_singleton in Hq as ->.
      apply elem_of_cons in Hp as [Hp | Hp]; [discriminate Hp|].
      apply list_elem_of_singleton in Hp. discriminate Hp. }
    assert (Hrun : Mixer.updateOutputs mixer_wired = (Ret tt, m1)) by by_eval.
    destruct (Hmixer mixer_wired m1 Hsep Hrun) as (Hself & Hin & Hname & _).
    split; [exact Hsep|]. split; [exact Hrun|]. split; [exact Hself|].
    split; [rewrite Hin; [reflexivity | left]|].
    split; [rewrite Hin; [reflexivity | right; left]|].
    rewrite Hname. reflexivity.
  - assert (Hsep : separate (reactor_double 30)).
    { intros p Hp Hq.
      change (outputs (reactor_double 30)) with [2%positive; 3%positive] in Hq.
      change (inputs (reactor_double 30)) with [1%positive] in Hp.
      apply list_elem_of_singleton in Hp as ->.
      apply elem_of_cons in Hq as [Hq | Hq]; [discriminate Hq|].
      apply list_elem_of_singleton in Hq. discriminate Hq. }
    assert (Hrun : Reactor.updateOutputs (reactor_double 30) = (Ret tt, r1))
      by by_eval.
    destruct (Hreactor (reactor_double 30) r1 Hsep Hrun) as (Hself & Hin & Hname & _).
    split; [exact Hsep|]. split; [exact Hrun|]. split; [exact Hself|].
    split; [rewrite Hin; [reflexivity | left]|].
    rewrite Hname. reflexivity.
Defined.

(** Without the separation the update reaches an input: the mixer whose
    first input is its output overwrites the flow 10 of that input by 15. *)
Example mixer_loop_overwrites_input :
  flow mixer_loop 1%positive = Some 10%float
  /\ flow (snd (Mixer.updateOutputs mixer_loop)) 1%positive = Some 15%float.
Proof. split; vm_compute; reflexivity. Qed.

(** C10. In every reachable state [updateOutputs] indexes no vector past
    its end and divides by no zero: the mixer divides by the number of
    outputs after it has found the vector not empty, and the reactor reads
    [inputs[0]], [outputs[0]] and, in double mode, [outputs[1]] after it has
    found an input and as many outputs as [outputAmount].  The method of
    [device_with_gtest.cpp] runs as the one of [device.cpp]. *)
Theorem update_accesses_safe :
  (forall (N : Z) (w : world Mixer.t),
      MixerCalls.reachable N w ->
      fst (Mixer.updateOutputs w) <> Fault OutOfRange
      /\ fst (Mixer.updateOutputs w) <> Fault DivByZero)
  /\ (forall (b : bool) (w : world Reactor.t),
      ReactorCalls.reachable b w ->
      fst (Reactor.updateOutputs w) <> Fault OutOfRange
      /\ fst (Reactor.updateOutputs w) <> Fault DivByZero
      /\ Gtest.updateOutputs w = Reactor.updateOutputs w).
Proof.
  split.
  - intros N w _.
    destruct (mixer_update_run w)
      as [(_ & ->) | (ms & _ & [(_ & ->) | [(_ & _ & ->) | (_ & _ & w' & -> & _)]])];
      split; discriminate.
  - intros b w Hreach. destruct (reactor_reachable_inv b w Hreach) as [Hinv _].
    split; [|split; [|now apply gtest_updateOutputs_eq]].
    + destruct (reactor_outputAmount_range w Hinv) as [Hid _].
      destruct Hinv as (_ & Hoa & _).
      pose proof (reactor_update_run w) as Hrel.
      destruct (Reactor.updateOutputs w) as [r w']. cbn [fst snd] in *.
      destruct Hrel as [ | | | | | w' _ Hsz Hshort _]; try discriminate.
      rewrite Hid, Hoa in Hsz. rewrite Hsz in Hshort.
      destruct (Reactor.isDoubleOutput (self w)); lia.
    + pose proof (reactor_update_run w) as Hrel.
      destruct (Reactor.updateOutputs w) as [r w']. cbn [fst snd] in *.
      destruct Hrel; discriminate.
Qed.

Lemma update_accesses_safe_witness :
  (MixerCalls.reachable 2 mixer_wired
   /\ fst (Mixer.updateOutputs mixer_wired) <> Fault OutOfRange
   /\ fst (Mixer.updateOutputs mixer_wired) <> Fault DivByZero)
  /\ (ReactorCalls.reachable true (reactor_double 30)
      /\ fst (Reactor.updateOutputs (reactor_double 30)) <> Fault OutOfRange
      /\ fst (Reactor.updateOutputs (reactor_double 30)) <> Fault DivByZero
      /\ Gtest.updateOutputs (reactor_double 30)
         = Reactor.updateOutputs (reactor_double 30)).
Proof.
  destruct update_accesses_safe as [Hmixer Hreactor]. split.
  - split; [exact mixer_wired_reachable|].
    exact (Hmixer 2 mixer_wired mixer_wired_reachable).
  - split; [exact (reactor_double_reachable 30)|].
    exact (Hreactor true (reactor_double 30) (reactor_double_reachable 30)).
Defined.

(** ** Further runs *)

(** An empty pointer among the inputs is undefined behaviour in the summing
    loop, before the outputs are looked at. *)
Example mixer_dangling_faults :
  fst (Mixer.updateOutputs mixer_dangling) = Fault NullDeref.
Proof. vm_compute. reflexivity. Qed.

(** The mixer that feeds itself is not idempotent: its second update raises
    the flow from 15 to 20. *)
Example mixer_loop_second_update :
  flow (snd (Mixer.updateOutputs (snd (Mixer.updateOutputs mixer_loop)))) 1%positive
  = Some 20%float.
Proof. vm_compute. reflexivity. Qed.

(** The reactor that feeds itself keeps its flow. *)
Example reactor_loop_keeps_flow :
  Reactor.updateOutputs (reactor_loop 20) = (Ret tt, reactor_loop 20).
Proof. vm_compute. reflexivity. Qed.

(** A mixer built with a negative count never rejects an input: the count
    is compared after its conversion to [size_t]. *)
Lemma mixer_negative_count_accepts (w : world Mixer.t) (s : loc) :
  is_int (Mixer._inputs_count (self w)) ->
  Mixer._inputs_count (self w) < 0 ->
  vsize (inputs w) <= INT_MAX ->
  exists w', Mixer.addInput s w = (Ret tt, w')
             /\ inputs w' = inputs w ++ [s].
Proof.
  intros [Hlo _] Hneg Hsmall. rewrite mixer_addInput_run.
  assert (Hne : vsize (inputs w) <> to_size_t (Mixer._inputs_count (self w))).
  { unfold to_size_t, SIZE_MODULUS, INT_MIN, INT_MAX in *.
    rewrite <- (Z.mod_add _ 1) by lia. rewrite Z.mod_small by lia. lia. }
  apply Z.eqb_neq in Hne. rewrite Hne.
  eexists. split; [reflexivity|]. now destruct w as [h [d n]].
Qed.

(** * Wiring: sequences of [addInput] and [addOutput] *)

(** A run of [addInput] over [ss] during which the size never meets the
    count attaches every stream of [ss], in order. *)
Lemma mixer_add_inputs (ss : list loc) (w : world Mixer.t) :
  (forall k, vsize (inputs w) <= k < vsize (inputs w) + vsize ss ->
             k <> to_size_t (Mixer._inputs_count (self w))) ->
  for_each ss Mixer.addInput w
  = (Ret tt,
     World (streams w)
       (with_base (Device.set_inputs (inputs w ++ ss) (base (self w))) (self w))).
Proof.
  revert w. induction ss as [|s ss IH]; intros w Hfree.
  - destruct w as [h [[ins outs ia oa] n]]. unfold inputs. cbn.
    now rewrite app_nil_r.
  - cbn [for_each]. rewrite bind_eq, mixer_addInput_run.
    assert (Hne : (vsize (inputs w) =? to_size_t (Mixer._inputs_count (self w)))
                  = false).
    { apply Z.eqb_neq. apply Hfree. unfold vsize. cbn [length]. lia. }
    rewrite Hne. rewrite IH.
    + destruct w as [h [[ins outs ia oa] n]]. unfold inputs. cbn.
      now rewrite <- app_assoc.
    + intros k Hk. destruct w as [h [[ins outs ia oa] n]].
      unfold inputs in *. cbn in *. apply Hfree.
      rewrite vsize_app in Hk. unfold vsize in *. cbn [length]. lia.
Qed.

(** From a mixer that is full, or that fills up on the way, the run stops
    at the first stream that does not fit. *)
Lemma mixer_add_inputs_overflow (ss : list loc) (w : world Mixer.t) :
  0 <= Mixer._inputs_count (self w) <= INT_MAX ->
  vsize (inputs w) <= Mixer._inputs_count (self w) ->
  Mixer._inputs_count (self w) < vsize (inputs w) + vsize ss ->
  for_each ss Mixer.addInput w
  = (Throw (Exn_string "Too much inputs"),
     World (streams w)
       (with_base
          (Device.set_inputs
             (inputs w
              ++ take (Z.to_nat (Mixer._inputs_count (self w) - vsize (inputs w))) ss)
             (base (self w)))
          (self w))).
Proof.
  revert w. induction ss as [|s ss IH]; intros w HN Hle Hlt.
  - unfold vsize in *. cbn [length] in *. lia.
  - cbn [for_each]. rewrite bind_eq, mixer_addInput_run.
    rewrite to_size_t_int by (unfold is_int, INT_MIN; lia).
    destruct (Z.eqb_spec (vsize (inputs w)) (Mixer._inputs_count (self w))) as [E|E].
    + rewrite E, Z.sub_diag. cbn [Z.to_nat take].
      destruct w as [h [[ins outs ia oa] n]]. unfold inputs. cbn.
      now rewrite app_nil_r.
    + assert (Hstep : Z.to_nat (Mixer._inputs_count (self w) - vsize (inputs w))
                      = S (Z.to_nat (Mixer._inputs_count (self w)
                                     - (vsize (inputs w) + 1)))) by lia.
      rewrite Hstep. cbn [take].
      destruct w as [h [[ins outs ia oa] n]]. unfold inputs in *. cbn in *.
      rewrite IH; unfold inputs; cbn; rewrite ?vsize_app.
      * now rewrite <- app_assoc.
      * exact HN.
      * lia.
      * unfold vsize in *. cbn [length] in Hlt. lia.
Qed.

(** X1. A new mixer of count [N] to which at most [N] live inputs of flows
    [ms] and then one live output are attached updates without an error:
    it holds the inputs in the order they were attached, its output carries
    the sum of [ms], and no other stream has changed. *)
Theorem wire_mixer_sums (N : Z) (h : gmap loc Stream.t) (ss : list loc)
        (o : loc) (ms : list float) :
  0 <= N <= INT_MAX -> vsize ss <= N ->
  Forall2 (fun p m => flow (World h (Mixer.new N)) p = Some m) ss ms ->
  alive (World h (Mixer.new N)) o ->
  exists w',
    wire_mixer ss o (World h (Mixer.new N)) = (Ret tt, w')
    /\ inputs w' = ss /\ outputs w' = [o]
    /\ flow w' o = Some (sum_flows ms)
    /\ (forall p, p <> o -> streams w' !! p = h !! p).
Proof.
  intros HN Hfit Hms Ho. unfold wire_mixer.
  rewrite bind_eq, mixer_add_inputs.
  2: { intros k Hk. change (inputs (World h (Mixer.new N))) with (@nil loc) in Hk.
       change (Mixer._inputs_count (self (World h (Mixer.new N)))) with N.
       rewrite to_size_t_int by (unfold is_int, INT_MIN; lia).
       unfold vsize in *. cbn [length] in Hk. lia. }
  cbv beta iota. rewrite bind_eq, mixer_addOutput_run.
  change (vsize (outputs _) =? to_size_t MIXER_OUTPUTS) with false. cbv iota.
  set (w2 := World h (Mixer.mk (Device.mk ss [o] 0 0) N)).
  change (Mixer.updateOutputs _) with (Mixer.updateOutputs w2).
  assert (Hlive : live w2).
  { unfold live. apply Forall_app. split.
    - exact (flows_alive (World h (Mixer.new N)) ss ms Hms).
    - constructor; [exact Ho | constructor]. }
  assert (Hflows : input_flows w2 ms) by exact Hms.
  rewrite (mixer_update_ok w2 ms Hlive Hflows) by discriminate.
  eexists. split; [reflexivity|]. split; [reflexivity|]. split; [reflexivity|].
  split.
  - rewrite flow_assign_in; [|left|exact Ho].
    change (vsize (outputs w2)) with 1. now rewrite of_size_one, div_one.
  - intros p Hp. cbn [streams]. rewrite lookup_assign, decide_False; [reflexivity|].
    change (outputs w2) with [o]. now rewrite list_elem_of_singleton.
Qed.

Lemma wire_mixer_sums_witness :
  0 <= 2 <= INT_MAX
  /\ vsize [1%positive; 2%positive] <= 2
  /\ exists w',
       wire_mixer [1%positive; 2%positive] 3%positive
         (World (three_streams 10 5 0) (Mixer.new 2)) = (Ret tt, w')
       /\ flow w' 3%positive = Some 15%float.
Proof.
  assert (HN : 0 <= 2 <= INT_MAX) by (vm_compute; split; discriminate).
  assert (Hfit : vsize [1%positive; 2%positive] <= 2) by by_eval.
  assert (Hms : Forall2 (fun p m => flow (World (three_streams 10 5 0) (Mixer.new 2)) p
                                     = Some m)
                  [1%positive; 2%positive] [10%float; 5%float])
    by (repeat constructor).
  assert (Ho : alive (World (three_streams 10 5 0) (Mixer.new 2)) 3%positive)
    by is_alive.
  destruct (wire_mixer_sums 2 _ _ _ _ HN Hfit Hms Ho) as (w' & Hrun & _ & _ & Hsum & _).
  split; [exact HN|]. split; [exact Hfit|].
  exists w'. split; [exact Hrun | exact Hsum].
Defined.

(** X2. A new mixer of count [N >= 0] to which more than [N] inputs are
    offered keeps the first [N] of them, in order, and throws at the next;
    the streams after it are never offered. *)
Theorem mixer_rejects_extra_inputs (N : Z) (h : gmap loc Stream.t)
        (ss : list loc) :
  0 <= N <= INT_MAX -> N < vsize ss ->
  exists w',
    for_each ss Mixer.addInput (World h (Mixer.new N))
    = (Throw (Exn_string "Too much inputs"), w')
    /\ inputs w' = take (Z.to_nat N) ss
    /\ outputs w' = [] /\ streams w' = h.
Proof.
  intros HN Hmany. rewrite mixer_add_inputs_overflow.
  - eexists. split; [reflexivity|]. unfold inputs, outputs. cbn.
    now rewrite Z.sub_0_r.
  - exact HN.
  - change (0 <= N). lia.
  - change (N < 0 + vsize ss). lia.
Qed.

Lemma mixer_rejects_extra_inputs_witness :
  0 <= 2 <= INT_MAX
  /\ 2 < vsize [1%positive; 2%positive; 3%positive]
  /\ exists w',
       for_each [1%positive; 2%positive; 3%positive] Mixer.addInput
         (World (three_streams 10 5 0) (Mixer.new 2))
       = (Throw (Exn_string "Too much inputs"), w')
       /\ inputs w' = [1%positive; 2%positive].
Proof.
  assert (HN : 0 <= 2 <= INT_MAX) by (vm_compute; split; discriminate).
  assert (Hmany : 2 < vsize [1%positive; 2%positive; 3%positive])
    by (vm_compute; reflexivity).
  destruct (mixer_rejects_extra_inputs 2 (three_streams 10 5 0) _ HN Hmany)
    as (w' & Hrun & Hin & _).
  split; [exact HN|]. split; [exact Hmany|].
  exists w'. split; [exact Hrun | exact Hin].
Defined.

(** A run of [Device::addOutput] over [os] on a reactor: the streams that
    fit are attached in order, and the run throws at the first that does
    not. *)
Lemma reactor_add_outputs (os : list loc) (w : world Reactor.t) :
  0 <= Device.outputAmount (base (self w)) <= INT_MAX ->
  vsize (outputs w) <= Device.outputAmount (base (self w)) ->
  for_each os DeviceMethods.addOutput w
  = (if vsize (outputs w) + vsize os <=? Device.outputAmount (base (self w))
     then Ret tt else Throw (Exn_cstr "OUTPUT STREAM LIMIT!"),
     World (streams w)
       (with_base
          (Device.set_outputs
             (outputs w
              ++ take (Z.to_nat (Device.outputAmount (base (self w))
                                 - vsize (outputs w))) os)
             (base (self w)))
          (self w))).
Proof.
  revert w. induction os as [|o os IH]; intros w Hcap Hle.
  - cbn [for_each]. rewrite ret_eq. change (vsize []) with 0. rewrite Z.add_0_r.
    destruct (Z.leb_spec (vsize (outputs w)) (Device.outputAmount (base (self w))));
      [|lia].
    rewrite take_nil.
    destruct w as [h [[ins outs ia oa] dbl]]. unfold outputs. cbn.
    now rewrite app_nil_r.
  - cbn [for_each]. rewrite bind_eq, device_addOutput_run.
    rewrite to_size_t_int by (unfold is_int, INT_MIN; lia).
    assert (Hlen : vsize (o :: os) = 1 + vsize os)
      by (unfold vsize; cbn [length]; lia).
    pose proof (vsize_nonneg os) as Hos.
    destruct (Z.ltb_spec (vsize (outputs w)) (Device.outputAmount (base (self w))))
      as [Hroom|Hfull].
    + assert (Hstep : Z.to_nat (Device.outputAmount (base (self w)) - vsize (outputs w))
                      = S (Z.to_nat (Device.outputAmount (base (self w))
                                     - (vsize (outputs w) + 1)))) by lia.
      rewrite Hstep, Hlen. cbn [take].
      destruct w as [h [[ins outs ia oa] dbl]]. unfold outputs in *. cbn in *.
      rewrite IH; unfold outputs; cbn; rewrite ?vsize_app; try lia.
      rewrite <- app_assoc. cbn [app].
      now replace (vsize outs + 1 + vsize os) with (vsize outs + (1 + vsize os))
        by lia.
    + replace (Device.outputAmount (base (self w)) - vsize (outputs w)) with 0 by lia.
      cbn [Z.to_nat take]. rewrite Hlen.
      destruct (Z.leb_spec (vsize (outputs w) + (1 + vsize os))
                  (Device.outputAmount (base (self w)))); [lia|].
      destruct w as [h [[ins outs ia oa] dbl]]. unfold outputs. cbn.
      now rewrite app_nil_r.
Qed.

(** X3. A new reactor to which a live input of flow [v] and exactly as many
    live outputs as its mode asks for are attached updates without an
    error: in single mode its output carries [v], in double mode both
    outputs carry [v / 2], and no other stream has changed. *)
Theorem wire_reactor_transfers (b : bool) (h : gmap loc Stream.t) (i : loc)
        (os : list loc) (v : float) :
  vsize os = (if b then 2 else 1) ->
  flow (World h (Reactor.new b)) i = Some v ->
  Forall (alive (World h (Reactor.new b))) os ->
  exists w',
    wire_reactor i os (World h (Reactor.new b)) = (Ret tt, w')
    /\ inputs w' = [i] /\ outputs w' = os
    /\ (forall o, o ∈ os -> flow w' o = Some (if b then v / 2 else v)%float)
    /\ (forall p, p ∉ os -> streams w' !! p = h !! p).
Proof.
  intros Hsz Hv Hos. unfold wire_reactor.
  rewrite bind_eq, device_addInput_run.
  change (vsize (inputs _) <? to_size_t _) with true. cbv iota.
  rewrite bind_eq, reactor_add_outputs.
  2: { cbn. unfold INT_MAX. destruct b; lia. }
  2: { change (0 <= if b then 2 else 1). destruct b; lia. }
  set (w2 := World h (Reactor.mk (Device.mk [i] os 1 (if b then 2 else 1)) b)).
  assert (Hfit : (0 + vsize os <=? (if b then 2 else 1)) = true)
    by (apply Z.leb_le; lia).
  assert (Htake : take (Z.to_nat ((if b then 2 else 1) - 0)) os = os).
  { apply take_ge. unfold vsize in Hsz. lia. }
  assert (Hw2 : reactor_run w2 (Ret tt)
                  (World (assign (if b then v / 2 else v)%float os h) (self w2))).
  { destruct b.
    - destruct os as [|o0 [|o1 os]]; try (unfold vsize in Hsz; cbn in Hsz; lia).
      pose proof (pair_of_vsize _ _ _ Hsz) as Hnil. subst os.
      inversion Hos as [|? ? Hl0 Hrest]; subst.
      inversion Hrest as [|? ? Hl1 _]; subst.
      apply (run_split w2 i [] v o0 o1 []);
        [reflexivity | reflexivity | exact Hv | reflexivity | reflexivity
        | exact Hl0 | exact Hl1].
    - destruct os as [|o os]; try (unfold vsize in Hsz; cbn in Hsz; lia).
      pose proof (singleton_of_vsize _ _ Hsz) as Hnil. subst os.
      inversion Hos as [|? ? Hl0 _]; subst.
      apply (run_transfer w2 i [] v o []);
        [reflexivity | reflexivity | exact Hv | reflexivity | reflexivity
        | exact Hl0]. }
  unfold outputs, base.
  cbn [self Reactor.derived Reactor.dev Reactor.new
         Device.outputs Device.outputAmount Device.set_outputAmount
         Device.set_inputAmount Device.set_inputs Device.set_outputs Device.init
         streams with_base Device.inputs Device.inputAmount
         Reactor.isDoubleOutput app].
  change (vsize []) with 0. rewrite Hfit, Htake.
  change (World h _) with w2.
  cbv iota. rewrite (reactor_update_of_run w2 _ Hw2).
  eexists. split; [reflexivity|]. split; [reflexivity|]. split; [reflexivity|].
  rewrite Forall_forall in Hos. split.
  - intros o Ho. apply (flow_assign_in _ os w2); [exact Ho | exact (Hos o Ho)].
  - intros p Hp. cbn [streams]. now rewrite lookup_assign, decide_False.
Qed.

Lemma wire_reactor_transfers_witness :
  vsize [2%positive; 3%positive] = 2
  /\ flow (World (three_streams 30 0 0) (Reactor.new true)) 1%positive = Some 30%float
  /\ exists w',
       wire_reactor 1%positive [2%positive; 3%positive]
         (World (three_streams 30 0 0) (Reactor.new true)) = (Ret tt, w')
       /\ flow w' 2%positive = Some 15%float
       /\ flow w' 3%positive = Some 15%float.
Proof.
  assert (Hsz : vsize [2%positive; 3%positive] = (if true then 2 else 1))
    by reflexivity.
  assert (Hv : flow (World (three_streams 30 0 0) (Reactor.new true)) 1%positive
               = Some 30%float) by reflexivity.
  assert (Hos : Forall (alive (World (three_streams 30 0 0) (Reactor.new true)))
                  [2%positive; 3%positive]) by (repeat constructor; is_alive).
  destruct (wire_reactor_transfers true _ _ _ _ Hsz Hv Hos)
    as (w' & Hrun & _ & _ & Hflows & _).
  split; [exact Hsz|]. split; [exact Hv|].
  exists w'. split; [exact Hrun|]. split.
  - apply (Hflows 2%positive). left.
  - apply (Hflows 3%positive). right. left.
Defined.

Lemma reactor_update_bad_outputs (w : world Reactor.t) :
  inputs w <> [] ->
  vsize (outputs w) <> to_size_t (Device.outputAmount (base (self w))) ->
  Reactor.updateOutputs w
  = (Throw (Exn_string "Output streams not properly set for reactor"), w).
Proof.
  intros Hin Hbad. unfold Reactor.updateOutputs. step. step.
  rewrite bool_decide_false by exact Hin. cbv iota. step.
  apply Z.eqb_neq in Hbad. unfold outputs, base, Reactor.derived in Hbad.
  now rewrite Hbad.
Qed.

(** X4. A new reactor wired with a number of outputs other than the one
    its mode asks for does not update, whatever the streams are: with too
    few outputs [updateOutputs] throws the [std::string] of the output
    test, with too many the surplus [addOutput] throws its string literal
    and [updateOutputs] is never called.  No stream is written. *)
Theorem wire_reactor_wrong_count (b : bool) (h : gmap loc Stream.t) (i : loc)
        (os : list loc) :
  vsize os <> (if b then 2 else 1) ->
  exists w',
    wire_reactor i os (World h (Reactor.new b))
    = (Throw (if vsize os <? (if b then 2 else 1)
              then Exn_string "Output streams not properly set for reactor"
              else Exn_cstr "OUTPUT STREAM LIMIT!"), w')
    /\ streams w' = h
    /\ inputs w' = [i]
    /\ outputs w' = take (if b then 2 else 1) os.
Proof.
  intros Hsz. unfold wire_reactor.
  rewrite bind_eq, device_addInput_run.
  change (vsize (inputs _) <? to_size_t _) with true. cbv iota.
  rewrite bind_eq, reactor_add_outputs.
  2: { cbn. unfold INT_MAX. destruct b; lia. }
  2: { change (0 <= if b then 2 else 1). destruct b; lia. }
  unfold outputs, base.
  cbn [self Reactor.derived Reactor.dev Reactor.new
         Device.outputs Device.outputAmount Device.set_outputAmount
         Device.set_inputAmount Device.set_inputs Device.set_outputs Device.init
         streams with_base Device.inputs Device.inputAmount
         Reactor.isDoubleOutput app].
  change (vsize []) with 0. rewrite Z.add_0_l, Z.sub_0_r.
  assert (Hk : Z.to_nat (if b then 2 else 1) = (if b then 2 else 1)%nat)
    by now destruct b.
  rewrite Hk.
  destruct (Z.leb_spec (vsize os) (if b then 2 else 1)) as [Hle|Hgt]; cbv iota.
  - assert (Hlt : vsize os < (if b then 2 else 1)) by lia.
    rewrite take_ge by (unfold vsize in Hle; destruct b; lia).
    rewrite reactor_update_bad_outputs.
    + apply Z.ltb_lt in Hlt. rewrite Hlt.
      eexists. split; [reflexivity|]. repeat split.
    + discriminate.
    + unfold outputs, base. cbn. unfold to_size_t, SIZE_MODULUS.
      destruct b; rewrite Z.mod_small; lia.
  - assert (Hge : (vsize os <? (if b then 2 else 1)) = false)
      by (apply Z.ltb_ge; lia).
    rewrite Hge. eexists. split; [reflexivity|]. repeat split.
Qed.

Lemma wire_reactor_wrong_count_witness :
  vsize [2%positive] <> 2
  /\ exists w',
       wire_reactor 1%positive [2%positive]
         (World (three_streams 30 0 0) (Reactor.new true))
       = (Throw (Exn_string "Output streams not properly set for reactor"), w')
       /\ streams w' = three_streams 30 0 0.
Proof.
  assert (Hsz : vsize [2%positive] <> (if true then 2 else 1)) by discriminate.
  destruct (wire_reactor_wrong_count true (three_streams 30 0 0) 1%positive _ Hsz)
    as (w' & Hrun & Hh & _).
  split; [exact Hsz|]. exists w'. split; [exact Hrun | exact Hh].
Defined.

(** * What the methods throw and what they leave alone *)

(** X5. The capacity errors of [Device::addInput] and [Device::addOutput],
    which a reactor inherits, are string literals ([const char*]); the
    capacity errors of the mixer and the precondition errors of both
    [updateOutputs] are [std::string]s.  Each method throws nothing else. *)
Theorem thrown_exception_types :
  (forall (D : Type) (HD : Derived D) (w w' : world D) (s : loc) (e : exn),
      DeviceMethods.addInput s w = (Throw e, w') ->
      e = Exn_cstr "INPUT STREAM LIMIT!")
  /\ (forall (D : Type) (HD : Derived D) (w w' : world D) (s : loc) (e : exn),
      DeviceMethods.addOutput s w = (Throw e, w') ->
      e = Exn_cstr "OUTPUT STREAM LIMIT!")
  /\ (forall (w w' : world Mixer.t) (s : loc) (e : exn),
      Mixer.addInput s w = (Throw e, w') -> e = Exn_string "Too much inputs")
  /\ (forall (w w' : world Mixer.t) (s : loc) (e : exn),
      Mixer.addOutput s w = (Throw e, w') -> e = Exn_string "Too much outputs")
  /\ (forall (w w' : world Mixer.t) (e : exn),
      Mixer.updateOutputs w = (Throw e, w') ->
      e = Exn_string "Should set outputs before update")
  /\ (forall (w w' : world Reactor.t) (e : exn),
      Reactor.updateOutputs w = (Throw e, w') ->
      e = Exn_string "Input stream not connected to reactor"
      \/ e = Exn_string "Output streams not properly set for reactor").
Proof.
  repeat apply conj.
  - intros D HD w w' s e. rewrite device_addInput_run.
    destruct (_ <? _); intros Heq; inversion Heq; reflexivity.
  - intros D HD w w' s e. rewrite device_addOutput_run.
    destruct (_ <? _); intros Heq; inversion Heq; reflexivity.
  - intros w w' s e. rewrite mixer_addInput_run.
    destruct (_ =? _); intros Heq; inversion Heq; reflexivity.
  - intros w w' s e. rewrite mixer_addOutput_run.
    destruct (_ =? _); intros Heq; inversion Heq; reflexivity.
  - intros w w' e Hrun.
    destruct (mixer_update_run w)
      as [(_ & Heq) | (ms & _ & [(_ & Heq) | [(_ & _ & Heq) | (_ & _ & w2 & Heq & _)]])];
      rewrite Heq in Hrun; inversion Hrun; reflexivity.
  - intros w w' e Hrun. pose proof (reactor_update_run w) as Hrel.
    rewrite Hrun in Hrel. cbn [fst snd] in Hrel.
    inversion Hrel; subst; [now left | now right].
Qed.

Lemma thrown_exception_types_witness :
  DeviceMethods.addInput 3%positive (reactor_single 20)
  = (Throw (Exn_cstr "INPUT STREAM LIMIT!"), reactor_single 20)
  /\ Mixer.addInput 3%positive mixer_wired
     = (Throw (Exn_string "Too much inputs"), mixer_wired)
  /\ Reactor.updateOutputs reactor_no_input
     = (Throw (Exn_string "Input stream not connected to reactor"),
        reactor_no_input).
Proof.
  destruct thrown_exception_types as (Hin & _ & Hmin & _ & _ & Hupd).
  assert (H1 : exists e, DeviceMethods.addInput 3%positive (reactor_single 20)
                         = (Throw e, reactor_single 20))
    by (eexists; vm_compute; reflexivity).
  assert (H2 : exists e, Mixer.addInput 3%positive mixer_wired
                         = (Throw e, mixer_wired))
    by (eexists; vm_compute; reflexivity).
  assert (H3 : exists e, Reactor.updateOutputs reactor_no_input
                         = (Throw e, reactor_no_input))
    by (eexists; vm_compute; reflexivity).
  destruct H1 as [e1 H1], H2 as [e2 H2], H3 as [e3 H3].
  split; [rewrite H1; now rewrite (Hin _ _ _ _ _ _ H1)|].
  split; [rewrite H2; now rewrite (Hmin _ _ _ _ H2)|].
  rewrite H3. destruct (Hupd _ _ _ H3) as [-> | ->]; [reflexivity|].
  vm_compute in H3. discriminate H3.
Defined.

(** X6. No call of [addInput] or [addOutput], of either class, reads or
    writes a stream or is undefined: the store after the call is the store
    before it, also when the pointer attached is empty. *)
Theorem adders_leave_streams :
  (forall (c : MixerCalls.call) (w w' : world Mixer.t) (r : outcome unit),
      c <> MixerCalls.UpdateOutputs ->
      MixerCalls.run c w = (r, w') -> defined r /\ streams w' = streams w)
  /\ (forall (c : ReactorCalls.call) (w w' : world Reactor.t) (r : outcome unit),
      c <> ReactorCalls.UpdateOutputs ->
      ReactorCalls.run c w = (r, w') -> defined r /\ streams w' = streams w).
Proof.
  split.
  - intros c w w' r Hc Hrun. destruct c as [s|s| |s|s]; cbn [MixerCalls.run] in Hrun;
      try contradiction.
    + rewrite mixer_addInput_run in Hrun.
      destruct (_ =? _); injection Hrun as <- <-; now split.
    + rewrite mixer_addOutput_run in Hrun.
      destruct (_ =? _); injection Hrun as <- <-; now split.
    + rewrite device_addInput_run in Hrun.
      destruct (_ <? _); injection Hrun as <- <-; now split.
    + rewrite device_addOutput_run in Hrun.
      destruct (_ <? _); injection Hrun as <- <-; now split.
  - intros c w w' r Hc Hrun. destruct c as [s|s| | ]; cbn [ReactorCalls.run] in Hrun;
      try contradiction.
    + rewrite device_addInput_run in Hrun.
      destruct (_ <? _); injection Hrun as <- <-; now split.
    + rewrite device_addOutput_run in Hrun.
      destruct (_ <? _); injection Hrun as <- <-; now split.
    + injection Hrun as <- <-. now split.
Qed.

Lemma adders_leave_streams_witness :
  MixerCalls.AddInput 4%positive <> MixerCalls.UpdateOutputs
  /\ defined (fst (Mixer.addInput 4%positive mixer_unwired))
  /\ streams (snd (Mixer.addInput 4%positive mixer_unwired))
     = streams mixer_unwired
  /\ inputs (snd (Mixer.addInput 4%positive mixer_unwired)) = [4%positive]
  /\ streams mixer_unwired !! 4%positive = None.
Proof.
  destruct adders_leave_streams as [Hmixer _].
  assert (Hc : MixerCalls.AddInput 4%positive <> MixerCalls.UpdateOutputs)
    by discriminate.
  assert (Hrun : MixerCalls.run (MixerCalls.AddInput 4%positive) mixer_unwired
                 = (fst (Mixer.addInput 4%positive mixer_unwired),
                    snd (Mixer.addInput 4%positive mixer_unwired)))
    by (vm_compute; reflexivity).
  destruct (Hmixer _ _ _ _ Hc Hrun) as [Hdef Hsame].
  split; [exact Hc|]. split; [exact Hdef|]. split; [exact Hsame|].
  split; reflexivity.
Defined.

(** X7. Attaching does not test the pointer: a new mixer accepts inputs
    among which one is empty, and the fault comes at [updateOutputs], in
    the summing loop, before any stream is written; a new reactor wired
    with an empty input faults at [updateOutputs] as well. *)
Theorem empty_pointer_faults_at_update :
  (forall (N : Z) (h : gmap loc Stream.t) (ss : list loc) (p o : loc),
      0 <= N <= INT_MAX -> vsize ss <= N -> p ∈ ss -> h !! p = None ->
      exists w',
        wire_mixer ss o (World h (Mixer.new N)) = (Fault NullDeref, w')
        /\ inputs w' = ss /\ outputs w' = [o] /\ streams w' = h)
  /\ (forall (b : bool) (h : gmap loc Stream.t) (p : loc) (os : list loc),
      vsize os = (if b then 2 else 1) -> h !! p = None ->
      fst (wire_reactor p os (World h (Reactor.new b))) = Fault NullDeref).
Proof.
  split.
  - intros N h ss p o HN Hfit Hp Hdead. unfold wire_mixer.
    rewrite bind_eq, mixer_add_inputs.
    2: { intros k Hk. change (inputs (World h (Mixer.new N))) with (@nil loc) in Hk.
         change (Mixer._inputs_count (self (World h (Mixer.new N)))) with N.
         rewrite to_size_t_int by (unfold is_int, INT_MIN; lia).
         unfold vsize in *. cbn [length] in Hk. lia. }
    cbv beta iota. rewrite bind_eq, mixer_addOutput_run.
    change (vsize (outputs _) =? to_size_t MIXER_OUTPUTS) with false. cbv iota.
    set (w2 := World h (Mixer.mk (Device.mk ss [o] 0 0) N)).
    change (Mixer.updateOutputs _) with (Mixer.updateOutputs w2).
    assert (Hnot : ~ Forall (alive w2) (inputs w2)).
    { rewrite Forall_forall. intros Hall. destruct (Hall p Hp) as [s Hs].
      cbn in Hs. congruence. }
    destruct (mixer_update_run w2) as [(_ & ->) | (ms & Hms & _)].
    + exists w2. repeat split.
    + destruct Hnot. exact (flows_alive w2 _ ms Hms).
  - intros b h p os Hsz Hdead. unfold wire_reactor.
    rewrite bind_eq, device_addInput_run.
    change (vsize (inputs _) <? to_size_t _) with true. cbv iota.
    rewrite bind_eq, reactor_add_outputs.
    2: { cbn. unfold INT_MAX. destruct b; lia. }
    2: { change (0 <= if b then 2 else 1). destruct b; lia. }
    unfold outputs, base.
    cbn [self Reactor.derived Reactor.dev Reactor.new
           Device.outputs Device.outputAmount Device.set_outputAmount
           Device.set_inputAmount Device.set_inputs Device.set_outputs Device.init
           streams with_base Device.inputs Device.inputAmount
           Reactor.isDoubleOutput app].
    change (vsize []) with 0.
    assert (Hfit : (0 + vsize os <=? (if b then 2 else 1)) = true)
      by (apply Z.leb_le; lia).
    assert (Htake : take (Z.to_nat ((if b then 2 else 1) - 0)) os = os).
    { apply take_ge. unfold vsize in Hsz. destruct b; lia. }
    rewrite Hfit, Htake.
    set (w2 := World h (Reactor.mk (Device.mk [p] os 1 (if b then 2 else 1)) b)).
    cbv beta iota.
    change (Reactor.updateOutputs _) with (Reactor.updateOutputs w2).
    pose proof (reactor_update_run w2) as Hrel.
    destruct (Reactor.updateOutputs w2) as [r w']. cbn [fst snd] in *.
    assert (Hid : to_size_t (if b then 2 else 1) = (if b then 2 else 1))
      by now destruct b.
    inversion Hrel as [ E | _ Hbad | i more v o os' Hi _ Hv | i more v o0 o1 os' Hi _ Hv
                      | w3 _ _ _ _ | w3 _ _ Hshort _ ]; subst.
    + discriminate E.
    + destruct Hbad. cbn. now rewrite Hid.
    + injection Hi as <- _. unfold flow in Hv. cbn in Hv. now rewrite Hdead in Hv.
    + injection Hi as <- _. unfold flow in Hv. cbn in Hv. now rewrite Hdead in Hv.
    + reflexivity.
    + unfold outputs in Hshort. cbn in Hshort. lia.
Qed.

Lemma empty_pointer_faults_at_update_witness :
  0 <= 2 <= INT_MAX
  /\ vsize [1%positive; 4%positive] <= 2
  /\ 4%positive ∈ [1%positive; 4%positive]
  /\ three_streams 10 5 0 !! 4%positive = None
  /\ exists w',
       wire_mixer [1%positive; 4%positive] 3%positive
         (World (three_streams 10 5 0) (Mixer.new 2)) = (Fault NullDeref, w')
       /\ streams w' = three_streams 10 5 0.
Proof.
  destruct empty_pointer_faults_at_update as [Hmixer _].
  assert (HN : 0 <= 2 <= INT_MAX) by (vm_compute; split; discriminate).
  assert (Hfit : vsize [1%positive; 4%positive] <= 2) by by_eval.
  assert (Hp : 4%positive ∈ [1%positive; 4%positive]) by (right; left).
  assert (Hdead : three_streams 10 5 0 !! 4%positive = None) by reflexivity.
  destruct (Hmixer 2 _ _ _ 3%positive HN Hfit Hp Hdead) as (w' & Hrun & _ & _ & Hh).
  split; [exact HN|]. split; [exact Hfit|]. split; [exact Hp|].
  split; [exact Hdead|]. exists w'. split; [exact Hrun | exact Hh].
Defined.

Lemma alive_assign_store {D E : Type} (x : float) (ps : list loc) (w : world D)
      (d : E) (q : loc) :
  alive w q -> alive (World (assign x ps (streams w)) d) q.
Proof. unfold alive. cbn [streams]. now rewrite assign_is_Some. Qed.

Lemma flow_assign_store {D E : Type} (x : float) (ps : list loc) (w : world D)
      (d : E) (q : loc) :
  q ∈ ps -> alive w q -> flow (World (assign x ps (streams w)) d) q = Some x.
Proof.
  intros Hq [s Hs]. unfold flow. cbn [streams].
  rewrite lookup_assign, decide_True by exact Hq. now rewrite Hs.
Qed.

(** X8. A mixer feeds a reactor through the stream they share: when the
    one output of the mixer is the input of the reactor, updating the mixer
    and then the reactor leaves the sum of the mixer's input flows on the
    output of a single reactor, and half of it on both outputs of a double
    reactor. *)
Theorem mixer_feeds_reactor (wm : world Mixer.t) (r : Reactor.t)
        (ms : list float) (o : loc) :
  live wm -> input_flows wm ms -> outputs wm = [o] ->
  ReactorCalls.inv (World (streams wm) r) ->
  Device.inputs (Reactor.dev r) = [o] ->
  vsize (Device.outputs (Reactor.dev r)) = Device.outputAmount (Reactor.dev r) ->
  Forall (alive wm) (Device.outputs (Reactor.dev r)) ->
  exists wm' wr',
    Mixer.updateOutputs wm = (Ret tt, wm')
    /\ Reactor.updateOutputs (World (streams wm') r) = (Ret tt, wr')
    /\ forall q, q ∈ Device.outputs (Reactor.dev r) ->
         flow wr' q
         = Some (if Reactor.isDoubleOutput r
                 then sum_flows ms / 2 else sum_flows ms)%float.
Proof.
  intros Hlive Hms Hout Hinv Hin Hsz Hqs.
  assert (Hne : outputs wm <> []) by (rewrite Hout; discriminate).
  rewrite (mixer_update_ok wm ms Hlive Hms Hne), Hout.
  change (vsize [o]) with 1. rewrite of_size_one, div_one.
  set (h' := assign (sum_flows ms) [o] (streams wm)).
  set (wr := World h' r).
  assert (Ho : alive wm o).
  { apply live_outputs in Hlive. rewrite Hout in Hlive. now inversion Hlive. }
  assert (Hlive_r : live wr).
  { unfold live. apply Forall_app. split.
    - change (inputs wr) with (Device.inputs (Reactor.dev r)). rewrite Hin.
      constructor; [|constructor]. now apply alive_assign_store.
    - change (outputs wr) with (Device.outputs (Reactor.dev r)).
      eapply Forall_impl; [exact Hqs|]. intros q. apply alive_assign_store. }
  assert (Hv : flow wr o = Some (sum_flows ms)).
  { apply (flow_assign_store _ [o] wm); [left | exact Ho]. }
  destruct (reactor_update_ok wr) as (wr' & Hrun & Hrel).
  - exact Hinv.
  - exact Hlive_r.
  - change (inputs wr) with (Device.inputs (Reactor.dev r)). rewrite Hin. discriminate.
  - exact Hsz.
  - eexists. exists wr'. split; [reflexivity|]. split; [exact Hrun|].
    destruct Hinv as (_ & Hoa & _).
    change (Device.outputAmount (Reactor.dev r)
            = if Reactor.isDoubleOutput r then 2 else 1) in Hoa.
    inversion Hrel as [ | | i more v q0 os Hi _ Hv' Hmode Hq Hl
                        | i more v q0 q1 os Hi _ Hv' Hmode Hq Hl0 Hl1 | | ];
      change (inputs wr) with (Device.inputs (Reactor.dev r)) in Hi;
      change (outputs wr) with (Device.outputs (Reactor.dev r)) in Hq;
      change (self wr) with r in Hmode;
      rewrite Hin in Hi; injection Hi as <- <-;
      rewrite Hv in Hv'; injection Hv' as <-; rewrite Hmode;
      rewrite Hq, Hoa, Hmode in Hsz; intros q Hmem; rewrite Hq in Hmem.
    + rewrite (singleton_of_vsize _ _ Hsz) in Hmem.
      apply list_elem_of_singleton in Hmem as ->.
      apply (flow_assign_in _ [q0] wr); [left | exact Hl].
    + rewrite (pair_of_vsize _ _ _ Hsz) in Hmem.
      apply elem_of_cons in Hmem as [-> | Hmem].
      * apply (flow_assign_in _ [q0; q1] wr); [left | exact Hl0].
      * apply list_elem_of_singleton in Hmem as ->.
        apply (flow_assign_in _ [q0; q1] wr); [right; left | exact Hl1].
Qed.

Lemma mixer_feeds_reactor_witness :
  let r := Reactor.mk (Device.mk [3%positive] [2%positive] 1 1) false in
  live mixer_wired
  /\ input_flows mixer_wired [10%float; 5%float]
  /\ outputs mixer_wired = [3%positive]
  /\ ReactorCalls.inv (World (streams mixer_wired) r)
  /\ exists wm' wr',
       Mixer.updateOutputs mixer_wired = (Ret tt, wm')
       /\ Reactor.updateOutputs (World (streams wm') r) = (Ret tt, wr')
       /\ flow wr' 2%positive = Some 15%float.
Proof.
  intros r.
  assert (Hlive : live mixer_wired) by by_eval.
  assert (Hms : input_flows mixer_wired [10%float; 5%float])
    by (unfold input_flows; repeat constructor).
  assert (Hout : outputs mixer_wired = [3%positive]) by reflexivity.
  assert (Hinv : ReactorCalls.inv (World (streams mixer_wired) r)) by by_eval.
  assert (Hin : Device.inputs (Reactor.dev r) = [3%positive]) by reflexivity.
  assert (Hsz : vsize (Device.outputs (Reactor.dev r))
                = Device.outputAmount (Reactor.dev r)) by reflexivity.
  assert (Hqs : Forall (alive mixer_wired) (Device.outputs (Reactor.dev r)))
    by (repeat constructor; is_alive).
  destruct (mixer_feeds_reactor mixer_wired r _ _ Hlive Hms Hout Hinv Hin Hsz Hqs)
    as (wm' & wr' & Hm & Hr & Hflow).
  do 4 (split; [assumption|]).
  exists wm', wr'. split; [exact Hm|]. split; [exact Hr|].
  apply (Hflow 2%positive). left.
Defined.

(** * Stream names *)

(** X9. The constructor of [Stream] gives streams built from different
    integers different names: two streams whose names are equal were built
    from the same integer. *)
Theorem stream_names_unique (s1 s2 : Z) (x1 x2 : float) :
  Stream.getName (Stream.create s1 x1) = Stream.getName (Stream.create s2 x2) ->
  s1 = s2.
Proof.
  unfold Stream.getName, Stream.create, Stream.setName. cbn [Stream.name].
  intros Heq. apply (inj (String.append "s")) in Heq.
  now apply (inj pretty) in Heq.
Qed.

Lemma stream_names_unique_witness :
  Stream.getName (Stream.create 7 0) = Stream.getName (Stream.create 7 1)
  /\ Stream.getName (Stream.create 7 0) = "s7"%string
  /\ Stream.getName (Stream.create (-3) 0) = "s-3"%string
  /\ 7 = 7.
Proof.
  assert (Heq : Stream.getName (Stream.create 7 0)
                = Stream.getName (Stream.create 7 1)) by reflexivity.
  split; [exact Heq|]. split; [reflexivity|]. split; [reflexivity|].
  exact (stream_names_unique 7 7 0 1 Heq).
Defined.

(** * The two files side by side *)

(** X10. The casts of [device_with_gtest.cpp] change nothing while the
    sizes fit an [int]: its four adders run as those of [device.cpp] on
    every device whose vectors hold at most [INT_MAX] streams, for the
    capacities the constructors set (not negative for [Device], any [int]
    count for [Mixer]). *)
Theorem gtest_adders_agree :
  (forall (D : Type) (HD : Derived D) (w : world D) (s : loc),
      0 <= Device.inputAmount (base (self w)) <= INT_MAX ->
      vsize (inputs w) <= INT_MAX ->
      GtestDevice.addInput s w = DeviceMethods.addInput s w)
  /\ (forall (D : Type) (HD : Derived D) (w : world D) (s : loc),
      0 <= Device.outputAmount (base (self w)) <= INT_MAX ->
      vsize (outputs w) <= INT_MAX ->
      GtestDevice.addOutput s w = DeviceMethods.addOutput s w)
  /\ (forall (w : world Mixer.t) (s : loc),
      is_int (Mixer._inputs_count (self w)) ->
      vsize (inputs w) <= INT_MAX ->
      GtestMixer.addInput s w = Mixer.addInput s w)
  /\ (forall (w : world Mixer.t) (s : loc),
      vsize (outputs w) <= INT_MAX ->
      GtestMixer.addOutput s w = Mixer.addOutput s w).
Proof.
  repeat apply conj.
  - intros D HD w s Hcap Hsmall.
    unfold GtestDevice.addInput, DeviceMethods.addInput. rewrite !bind_eq, !gets_eq.
    cbv beta iota. pose proof (vsize_nonneg (inputs w)). unfold inputs in *.
    rewrite to_int_small by lia.
    rewrite to_size_t_int by (unfold is_int, INT_MIN; lia). reflexivity.
  - intros D HD w s Hcap Hsmall.
    unfold GtestDevice.addOutput, DeviceMethods.addOutput. rewrite !bind_eq, !gets_eq.
    cbv beta iota. pose proof (vsize_nonneg (outputs w)). unfold outputs in *.
    rewrite to_int_small by lia.
    rewrite to_size_t_int by (unfold is_int, INT_MIN; lia). reflexivity.
  - intros w s Hint Hsmall.
    unfold GtestMixer.addInput, Mixer.addInput.
    rewrite !(bind_eq (gets self)), !gets_eq. cbv beta iota.
    pose proof (vsize_nonneg (inputs w)) as Hpos.
    unfold inputs, base, Mixer.derived in Hsmall, Hpos.
    rewrite to_int_small by lia.
    destruct (Z_lt_le_dec (Mixer._inputs_count (self w)) 0) as [Hneg|Hnn].
    + assert (H1 : (vsize (Device.inputs (Mixer.dev (self w)))
                    =? Mixer._inputs_count (self w)) = false)
        by (apply Z.eqb_neq; lia).
      assert (H2 : (vsize (Device.inputs (Mixer.dev (self w)))
                    =? to_size_t (Mixer._inputs_count (self w))) = false).
      { apply Z.eqb_neq. destruct Hint as [Hlo _].
        unfold to_size_t, SIZE_MODULUS, INT_MIN, INT_MAX in *.
        rewrite <- (Z.mod_add _ 1) by lia. rewrite Z.mod_small by lia. lia. }
      now rewrite H1, H2.
    + now rewrite to_size_t_int.
  - intros w s Hsmall.
    unfold GtestMixer.addOutput, Mixer.addOutput.
    rewrite !(bind_eq (gets self)), !gets_eq. cbv beta iota.
    pose proof (vsize_nonneg (outputs w)) as Hpos.
    unfold outputs, base, Mixer.derived in Hsmall, Hpos.
    rewrite to_int_small by lia. reflexivity.
Qed.

Lemma gtest_adders_agree_witness :
  0 <= Device.inputAmount (base (self (reactor_single 20))) <= INT_MAX
  /\ vsize (inputs (reactor_single 20)) <= INT_MAX
  /\ GtestDevice.addInput 3%positive (reactor_single 20)
     = DeviceMethods.addInput 3%positive (reactor_single 20)
  /\ is_int (Mixer._inputs_count (self mixer_unwired))
  /\ vsize (inputs mixer_unwired) <= INT_MAX
  /\ GtestMixer.addInput 1%positive mixer_unwired
     = Mixer.addInput 1%positive mixer_unwired.
Proof.
  destruct gtest_adders_agree as (Hin & _ & Hmin & _).
  assert (H1 : 0 <= Device.inputAmount (base (self (reactor_single 20))) <= INT_MAX)
    by (vm_compute; split; discriminate).
  assert (H2 : vsize (inputs (reactor_single 20)) <= INT_MAX) by by_eval.
  assert (H3 : is_int (Mixer._inputs_count (self mixer_unwired)))
    by (vm_compute; split; discriminate).
  assert (H4 : vsize (inputs mixer_unwired) <= INT_MAX) by by_eval.
  split; [exact H1|]. split; [exact H2|].
  split; [exact (Hin _ _ _ 3%positive H1 H2)|].
  split; [exact H3|]. split; [exact H4|].
  exact (Hmin _ 1%positive H3 H4).
Defined.

(** X11. A mixer built with a negative count has no limit: it accepts
    every sequence of inputs (of at most [INT_MAX] streams), because the
    size never equals the count converted to [size_t]. *)
Theorem mixer_negative_count_unbounded (N : Z) (h : gmap loc Stream.t)
        (ss : list loc) :
  is_int N -> N < 0 -> vsize ss <= INT_MAX ->
  exists w',
    for_each ss Mixer.addInput (World h (Mixer.new N)) = (Ret tt, w')
    /\ inputs w' = ss.
Proof.
  intros [Hlo _] Hneg Hsmall. rewrite mixer_add_inputs.
  - eexists. split; reflexivity.
  - intros k Hk. change (inputs (World h (Mixer.new N))) with (@nil loc) in Hk.
    change (Mixer._inputs_count (self (World h (Mixer.new N)))) with N.
    unfold to_size_t, SIZE_MODULUS, INT_MIN, INT_MAX, vsize in *.
    cbn [length] in Hk.
    rewrite <- (Z.mod_add _ 1) by lia. rewrite Z.mod_small by lia. lia.
Qed.

Lemma mixer_negative_count_unbounded_witness :
  is_int (-1) /\ -1 < 0
  /\ vsize [1%positive; 2%positive; 3%positive] <= INT_MAX
  /\ exists w',
       for_each [1%positive; 2%positive; 3%positive] Mixer.addInput
         (World (three_streams 10 5 0) (Mixer.new (-1))) = (Ret tt, w')
       /\ inputs w' = [1%positive; 2%positive; 3%positive].
Proof.
  assert (H1 : is_int (-1)) by (vm_compute; split; discriminate).
  assert (H2 : -1 < 0) by reflexivity.
  assert (H3 : vsize [1%positive; 2%positive; 3%positive] <= INT_MAX) by by_eval.
  split; [exact H1|]. split; [exact H2|]. split; [exact H3|].
  exact (mixer_negative_count_unbounded (-1) (three_streams 10 5 0) _ H1 H2 H3).
Defined.

(** The two capacities of the base of a mixer stay at the zero of
    [Device()], whatever the count. *)
Lemma mixer_base_amounts (N : Z) (w : world Mixer.t) :
  MixerCalls.reachable N w ->
  Device.inputAmount (base (self w)) = 0
  /\ Device.outputAmount (base (self w)) = 0.
Proof.
  intros Hreach. induction Hreach as [h | w h _ IH | w c r w' _ IH Hrun _].
  - split; reflexivity.
  - exact IH.
  - destruct c as [s|s| |s|s]; cbn [MixerCalls.run] in Hrun.
    + rewrite mixer_addInput_run in Hrun.
      destruct (_ =? _); injection Hrun as <- <-; exact IH.
    + rewrite mixer_addOutput_run in Hrun.
      destruct (_ =? _); injection Hrun as <- <-; exact IH.
    + rewrite <- (mixer_update_self w) in IH. now rewrite Hrun in IH.
    + rewrite device_addInput_run in Hrun.
      destruct (_ <? _); injection Hrun as <- <-; exact IH.
    + rewrite device_addOutput_run in Hrun.
      destruct (_ <? _); injection Hrun as <- <-; exact IH.
Qed.

(** X12. [Mixer] hides [addInput] and [addOutput] and never sets the
    capacities of its base: called on a mixer through [Device], the two
    methods of the base throw their capacity error in every reachable
    state, also while the mixer has room, and change nothing. *)
Theorem mixer_through_base_rejects (N : Z) (w : world Mixer.t) (s : loc) :
  MixerCalls.reachable N w ->
  DeviceMethods.addInput s w = (Throw (Exn_cstr "INPUT STREAM LIMIT!"), w)
  /\ DeviceMethods.addOutput s w = (Throw (Exn_cstr "OUTPUT STREAM LIMIT!"), w).
Proof.
  intros Hreach. destruct (mixer_base_amounts N w Hreach) as [Hia Hoa].
  rewrite device_addInput_run, device_addOutput_run, Hia, Hoa.
  change (to_size_t 0) with 0.
  pose proof (vsize_nonneg (inputs w)). pose proof (vsize_nonneg (outputs w)).
  destruct (Z.ltb_spec (vsize (inputs w)) 0); [lia|].
  destruct (Z.ltb_spec (vsize (outputs w)) 0); [lia|].
  split; reflexivity.
Qed.

Lemma mixer_through_base_rejects_witness :
  MixerCalls.reachable 2 mixer_unwired
  /\ DeviceMethods.addInput 1%positive mixer_unwired
     = (Throw (Exn_cstr "INPUT STREAM LIMIT!"), mixer_unwired)
  /\ fst (Mixer.addInput 1%positive mixer_unwired) = Ret tt.
Proof.
  assert (Hreach : MixerCalls.reachable 2 mixer_unwired) by apply reach_new.
  destruct (mixer_through_base_rejects 2 mixer_unwired 1%positive Hreach)
    as [Hin _].
  split; [exact Hreach|]. split; [exact Hin | reflexivity].
Defined.

(** * The test runner *)

Lemma runner_loop_tally (tests : list Runner.TestCase) (t : Runner.tally) :
  match Runner.loop tests t with
  | inl t' =>
      Forall (fun test => Runner.caught (Runner.function test) = true) tests
      /\ Runner.passed t' = Runner.passed t + Runner.count Runner.returns tests
      /\ Runner.failed t' = Runner.failed t + Runner.count Runner.throws_std tests
  | inr (e, t') =>
      exists before test after,
        tests = before ++ test :: after
        /\ Forall (fun test => Runner.caught (Runner.function test) = true) before
        /\ Runner.function test = Runner.ThrowsOther e
        /\ Runner.passed t' = Runner.passed t + Runner.count Runner.returns before
        /\ Runner.failed t'
           = Runner.failed t + Runner.count Runner.throws_std before
  end.
Proof.
  revert t. induction tests as [|test tests IH]; intros t; cbn [Runner.loop].
  - cbn [Runner.count]. repeat split; [constructor | lia | lia].
  - destruct (Runner.function test) as [ | |e] eqn:Hf.
    + match goal with |- context [Runner.loop tests ?t1] => specialize (IH t1) end.
      destruct (Runner.loop tests _) as [t'|[e t']].
      * destruct IH as (Hall & Hp & Hfl). cbn [Runner.passed Runner.failed] in *.
        cbn [Runner.count]. rewrite Hf. cbn [Runner.returns Runner.throws_std].
        repeat split; [constructor; [now rewrite Hf | exact Hall] | lia | lia].
      * destruct IH as (before & test' & after & -> & Hall & Hthrows & Hp & Hfl).
        exists (test :: before), test', after.
        cbn [Runner.passed Runner.failed] in *. cbn [Runner.count]. rewrite Hf.
        cbn [Runner.returns Runner.throws_std].
        repeat split; [constructor; [now rewrite Hf | exact Hall]
                      | exact Hthrows | lia | lia].
    + match goal with |- context [Runner.loop tests ?t1] => specialize (IH t1) end.
      destruct (Runner.loop tests _) as [t'|[e t']].
      * destruct IH as (Hall & Hp & Hfl). cbn [Runner.passed Runner.failed] in *.
        cbn [Runner.count]. rewrite Hf. cbn [Runner.returns Runner.throws_std].
        repeat split; [constructor; [now rewrite Hf | exact Hall] | lia | lia].
      * destruct IH as (before & test' & after & -> & Hall & Hthrows & Hp & Hfl).
        exists (test :: before), test', after.
        cbn [Runner.passed Runner.failed] in *. cbn [Runner.count]. rewrite Hf.
        cbn [Runner.returns Runner.throws_std].
        repeat split; [constructor; [now rewrite Hf | exact Hall]
                      | exact Hthrows | lia | lia].
    + exists [], test, tests. cbn [Runner.count Runner.passed Runner.failed].
      repeat split; [constructor | exact Hf | lia | lia].
Qed.

Lemma runner_count_bounds (b : Runner.behaviour -> bool)
      (tests : list Runner.TestCase) :
  0 <= Runner.count b tests <= vsize tests.
Proof.
  induction tests as [|test tests IH]; cbn [Runner.count].
  - unfold vsize. cbn. lia.
  - unfold vsize in *. cbn [length]. destruct (b _); lia.
Qed.

Lemma runner_count_split (tests : list Runner.TestCase) :
  Forall (fun test => Runner.caught (Runner.function test) = true) tests ->
  Runner.count Runner.returns tests + Runner.count Runner.throws_std tests
  = vsize tests.
Proof.
  induction 1 as [|test tests Hc _ IH]; cbn [Runner.count].
  - reflexivity.
  - unfold vsize in *. cbn [length].
    destruct (Runner.function test); cbn in *; try discriminate; lia.
Qed.

Lemma runner_count_all (tests : list Runner.TestCase) :
  Runner.count Runner.throws_std tests = 0 ->
  Forall (fun test => Runner.caught (Runner.function test) = true) tests ->
  Forall (fun test => Runner.function test = Runner.Returns) tests.
Proof.
  intros Hzero Hall. induction Hall as [|test tests Hc _ IH]; [constructor|].
  cbn [Runner.count] in Hzero.
  pose proof (runner_count_bounds Runner.throws_std tests).
  destruct (Runner.function test) eqn:Hf; cbn in *; try discriminate; try lia.
  constructor; [exact Hf | apply IH; lia].
Qed.

(** X13. The runner of [device_with_gtest.cpp] counts a test as passed
    when it returns and as failed when it throws a [std::exception]: when
    [main] exits, the two counts add up to the number of registered tests
    and the exit status is 0 exactly when every test returned.  An
    exception of another type (the strings the devices throw) is not
    caught: [main] ends at the first test that throws one, with the tests
    before it counted and the tests after it never run. *)
Theorem runner_counts (tests : list Runner.TestCase) :
  vsize tests <= INT_MAX ->
  match Runner.main tests with
  | Runner.Exit code t =>
      Runner.passed t = Runner.count Runner.returns tests
      /\ Runner.failed t = Runner.count Runner.throws_std tests
      /\ Runner.passed t + Runner.failed t = vsize tests
      /\ (code = 0 \/ code = 1)
      /\ (code = 0
          <-> Forall (fun test => Runner.function test = Runner.Returns) tests)
  | Runner.Terminate e t =>
      exists before test after,
        tests = before ++ test :: after
        /\ Forall (fun test => Runner.caught (Runner.function test) = true) before
        /\ Runner.function test = Runner.ThrowsOther e
        /\ Runner.passed t = Runner.count Runner.returns before
        /\ Runner.failed t = Runner.count Runner.throws_std before
  end.
Proof.
  intros _. unfold Runner.main.
  match goal with |- context [Runner.loop tests ?t0] =>
    pose proof (runner_loop_tally tests t0) as Hloop;
    destruct (Runner.loop tests t0) as [t|[e t]]
  end.
  - destruct Hloop as (Hall & Hp & Hf). cbn [Runner.passed Runner.failed] in Hp, Hf.
    rewrite Z.add_0_l in Hp, Hf.
    pose proof (runner_count_split tests Hall) as Hsum.
    pose proof (runner_count_bounds Runner.throws_std tests) as Hb.
    cbn [Runner.failed Runner.passed].
    destruct (Z.ltb_spec 0 (Runner.failed t)) as [Hpos|Hzero];
      cbn [Runner.failed Runner.passed].
    + split; [exact Hp|]. split; [exact Hf|]. split; [lia|]. split; [now right|].
      split; [discriminate|]. intros Hret. exfalso.
      assert (Hnone : Runner.count Runner.throws_std tests = 0).
      { clear -Hret. induction Hret as [|test tests Hr _ IH]; [reflexivity|].
        cbn [Runner.count]. rewrite Hr. cbn. lia. }
      lia.
    + split; [exact Hp|]. split; [exact Hf|]. split; [lia|]. split; [now left|].
      split; [|reflexivity]. intros _. apply runner_count_all; [lia | exact Hall].
  - destruct Hloop as (before & test & after & Heq & Hall & Hthrows & Hp & Hf).
    exists before, test, after. cbn [Runner.passed Runner.failed] in Hp, Hf.
    rewrite Z.add_0_l in Hp, Hf. now repeat split.
Qed.

Lemma runner_counts_witness :
  let tests :=
    [Runner.mkTest "ReactorTest.SingleOutputMode" Runner.Returns;
     Runner.mkTest "ReactorTest.Broken" Runner.ThrowsStd;
     Runner.mkTest "MixerTest.BasicFunctionality" Runner.Returns] in
  vsize tests <= INT_MAX
  /\ exists t, Runner.main tests = Runner.Exit 1 t
               /\ Runner.passed t = 2 /\ Runner.failed t = 1.
Proof.
  intros tests.
  assert (Hsmall : vsize tests <= INT_MAX) by by_eval.
  pose proof (runner_counts tests Hsmall) as Hcounts.
  split; [exact Hsmall|].
  destruct (Runner.main tests) as [code t|e t] eqn:Hmain.
  - destruct Hcounts as (Hp & Hf & _ & _ & _).
    assert (Hcode : code = 1) by (vm_compute in Hmain; congruence).
    subst code. exists t. split; [reflexivity|]. split; [exact Hp | exact Hf].
  - vm_compute in Hmain. discriminate Hmain.
Defined.

(** * The checks of the tests on doubles *)

Lemma ltb_nan_r (x : float) : (x <? nan)%float = false.
Proof.
  rewrite ltb_spec. change (Prim2SF nan) with S754_nan.
  unfold SFltb. now destruct (Prim2SF x).
Qed.

Lemma sub_nan_l (x : float) : (nan - x)%float = nan.
Proof.
  apply Prim2SF_inj. rewrite sub_spec. change (Prim2SF nan) with S754_nan.
  reflexivity.
Qed.

Lemma sub_nan_r (x : float) : (x - nan)%float = nan.
Proof.
  apply Prim2SF_inj. rewrite sub_spec. change (Prim2SF nan) with S754_nan.
  unfold SF64sub, SFsub. now destruct (Prim2SF x).
Qed.

(** X14. [EXPECT_NEAR] does not fail when one of the two values is NaN,
    whatever the other value and the tolerance are, because it tests
    [abs(val1 - val2) > abs_error]; the checks of [device.cpp], which test
    [... < POSSIBLE_ERROR], reject a NaN. *)
Theorem expect_near_accepts_nan (v abs_error : float) :
  expect_near nan v abs_error = true
  /\ expect_near v nan abs_error = true
  /\ reactor_test_accepts nan = false
  /\ mixer_test_accepts nan = false.
Proof.
  unfold expect_near. rewrite sub_nan_l, sub_nan_r.
  change (abs nan) with nan. rewrite ltb_nan_r.
  repeat split.
Qed.

(** ** The test of the mixer accepts every small flow *)

Lemma shr_1_nonneg r : 0 <= shr_m r -> 0 <= shr_m (shr_1 r).
Proof.
  destruct r as [m rb sb]. cbn [shr_m]. intros Hm.
  destruct m as [|p|p]; [| |lia]; cbn [shr_1 shr_m]; [lia|].
  destruct p; cbn [shr_m]; lia.
Qed.

Lemma iter_shr_1_nonneg p r :
  0 <= shr_m r -> 0 <= shr_m (SpecFloat.iter_pos shr_1 p r).
Proof.
  revert r. induction p as [p IH|p IH|]; intros r Hr; cbn [SpecFloat.iter_pos].
  - apply IH, IH, shr_1_nonneg, Hr.
  - apply IH, IH, Hr.
  - apply shr_1_nonneg, Hr.
Qed.

Lemma shr_fexp_nonneg m e l :
  0 <= m -> 0 <= shr_m (fst (shr_fexp prec emax m e l)).
Proof.
  intros Hm. unfold shr_fexp, shr.
  assert (H0 : 0 <= shr_m (shr_record_of_loc m l)).
  { destruct l as [|[]]; exact Hm. }
  destruct (fexp prec emax (Zdigits2 m + e) - e); cbn [fst];
    [exact H0 | now apply iter_shr_1_nonneg | exact H0].
Qed.

Lemma round_nearest_even_nonneg m l : 0 <= m -> 0 <= round_nearest_even m l.
Proof.
  intros Hm. unfold round_nearest_even.
  destruct l as [|[]]; try lia. destruct (Z.even m); lia.
Qed.

Lemma binary_round_aux_negative m e l :
  0 <= m -> signed_below_zero (binary_round_aux prec emax true m e l).
Proof.
  intros Hm. unfold binary_round_aux.
  pose proof (shr_fexp_nonneg m e l Hm) as H1.
  destruct (shr_fexp prec emax m e l) as [mrs' e']. cbn [fst] in H1.
  pose proof (shr_fexp_nonneg _ e' loc_Exact
                (round_nearest_even_nonneg _ (loc_of_shr_record mrs') H1)) as H2.
  destruct (shr_fexp prec emax _ e' loc_Exact) as [mrs'' e'']. cbn [fst] in H2.
  destruct (shr_m mrs'') as [|p|p]; [exact I | | lia].
  destruct (e'' <=? emax - prec); exact I.
Qed.

Lemma binary_normalize_negative p e :
  signed_below_zero (binary_normalize prec emax (Zneg p) e false).
Proof.
  unfold binary_normalize, binary_round.
  destruct (shl_align p e _) as [mz ez]. now apply binary_round_aux_negative.
Qed.

Lemma ltb_negative_positive f m e :
  signed_below_zero f -> SFltb f (S754_finite false m e) = true.
Proof. destruct f as [[]|[]| |[] ? ?]; cbn; easy. Qed.

Lemma iter_xO_pow p d : Zpos (Pos.iter xO p d) = Zpos p * 2 ^ Zpos d.
Proof.
  induction d as [|d IH] using Pos.peano_ind.
  - cbn [Pos.iter]. rewrite Pos2Z.inj_xO. lia.
  - rewrite Pos.iter_succ, Pos2Z.inj_xO, IH, Pos2Z.inj_succ, Z.pow_succ_r by lia. lia.
Qed.

Lemma Prim2SF_fifteen : Prim2SF 15%float = fifteen_sf.
Proof. reflexivity. Qed.

Lemma bounded_digits m e : bounded prec emax m e = true -> Zpos (digits2_pos m) <= 53.
Proof.
  unfold bounded, canonical_mantissa, fexp. intros H.
  apply andb_prop in H as [H _]. apply Z.eqb_eq in H.
  change prec with 53 in H. change (SpecFloat.emin prec emax) with (-1074) in H. lia.
Qed.

(** [y - 15] for a [y >= 0] that is at most 15 is zero or negative. *)
Lemma SFsub_fifteen y :
  valid_binary y = true -> SFabs y = y -> SFleb y fifteen_sf = true ->
  SF64sub y fifteen_sf = S754_zero false
  \/ signed_below_zero (SF64sub y fifteen_sf).
Proof.
  intros Hv Habs Hle. destruct y as [s|s| |s m e]; cbn in Habs.
  - right. exact I.
  - injection Habs as Hs. subst s. vm_compute in Hle. discriminate Hle.
  - vm_compute in Hle. discriminate Hle.
  - injection Habs as Hs. subst s. cbn [valid_binary] in Hv.
    pose proof (bounded_digits m e Hv) as Hd.
    pose proof (digits2_pos_bound m) as Hm.
    assert (Hm53 : Zpos m < 9007199254740992).
    { eapply Z.lt_le_trans; [exact Hm|]. change 9007199254740992 with (2 ^ 53).
      apply Z.pow_le_mono_r; lia. }
    clear Hm.
    unfold SFleb, SFcompare, fifteen_sf in Hle.
    unfold SF64sub, SFsub, fifteen_sf, cond_Zopp.
    destruct (Z.compare_spec e (-49)) as [He|He|He]; [| |discriminate Hle].
    + subst e. rewrite Z.min_id. unfold shl_align. rewrite Z.sub_diag. cbn [fst].
      destruct (Pos.compare_cont Eq m 8444249301319680) eqn:Hc;
        [| |discriminate Hle].
      * pose proof (Pos.compare_eq m _ Hc) as Hmeq. subst m. left.
        rewrite Z.sub_diag. reflexivity.
      * right. pose proof (proj1 (Pos.compare_lt_iff m _) Hc) as Hlt.
        apply Pos2Z.pos_lt_pos in Hlt.
        destruct (Z.pos m - Z.pos 8444249301319680) as [|d|d] eqn:Hdiff;
          [clear -Hlt Hdiff; lia | clear -Hlt Hdiff; lia |].
        apply binary_normalize_negative.
    + right. rewrite Z.min_l by (clear -He; lia). unfold shl_align. rewrite Z.sub_diag. cbn [fst].
      destruct (e - -49) as [|d|d] eqn:Hs;
        [clear -He Hs; lia | clear -He Hs; lia |]. cbn [fst].
      pose proof (iter_xO_pow 8444249301319680 d) as Hpow.
      assert (Hbig : 9007199254740992 <= Z.pos (Pos.iter xO 8444249301319680%positive d)).
      { rewrite Hpow. assert (Hp : 2 ^ 1 <= 2 ^ Z.pos d) by (apply Z.pow_le_mono_r; lia).
        change (2 ^ 1) with 2 in Hp.
        generalize dependent (2 ^ Z.pos d). intros P _ HP. lia. }
      generalize dependent (Pos.iter xO 8444249301319680%positive d). intros big _ Hbig.
      destruct (Z.pos m - Z.pos big) as [|q|q] eqn:Hdiff;
        [clear -Hm53 Hbig Hdiff; lia | clear -Hm53 Hbig Hdiff; lia |].
      apply binary_normalize_negative.
Qed.

(** X15. The check of [shouldSetOutputsCorrectlyWithOneOutput] in
    [device.cpp], [abs(flow) - 15 < POSSIBLE_ERROR], has the absolute value
    around the flow only: it accepts every flow whose absolute value is at
    most 15, a flow of zero included. *)
Theorem mixer_test_accepts_small (x : float) :
  (abs x <=? 15)%float = true -> mixer_test_accepts x = true.
Proof.
  intros Hle. unfold mixer_test_accepts.
  rewrite leb_spec, Prim2SF_fifteen in Hle.
  rewrite ltb_spec, sub_spec, Prim2SF_fifteen.
  change (Prim2SF POSSIBLE_ERROR)
    with (S754_finite false 5764607394185216 (-59)).
  assert (Habs : SFabs (Prim2SF (abs x)) = Prim2SF (abs x)).
  { rewrite abs_spec. now destruct (Prim2SF x). }
  destruct (SFsub_fifteen _ (Prim2SF_valid (abs x)) Habs Hle) as [-> | Hneg].
  - reflexivity.
  - now apply ltb_negative_positive.
Qed.

Lemma mixer_test_accepts_small_witness :
  (abs 0 <=? 15)%float = true /\ mixer_test_accepts 0 = true.
Proof.
  split; [reflexivity | apply (mixer_test_accepts_small 0); reflexivity].
Defined.
